(** * Geertsma's disk-shaped reservoir model: a shallow embedding

    This development embeds [geertsma_disk.py] (displacement and stress
    fields produced by a disk-shaped reservoir) and checks the statements
    of its specification against the embedded code.

    The Python module computes with NumPy values: Python floats, and
    one-dimensional arrays obtained as rows of the coordinate matrix.  The
    embedding keeps that structure:

    - the arithmetic is an interface ([Numeric]), with two instances: the
      real numbers (exact arithmetic) and IEEE-754 binary64 (the machine's
      arithmetic, Rocq's primitive floats);
    - the functions of [scipy.special] and of libm are a second interface
      ([Special]); the compaction coefficient [Cm] comes from another module
      of the repository and is a parameter;
    - a NumPy value is a scalar or an array ([nd]) and the operators
      broadcast;
    - the two public functions run in a store of Python objects, so that
      reading the inputs, allocating the intermediate arrays and the
      in-place updates [ur *= ...] are explicit. *)

From Stdlib Require Import Reals Lra ZArith List String Floats Uint63.
From stdpp Require Import base list.

(* ================================================================== *)
(** * Arithmetic *)

(** The operations on floating-point numbers the module uses. *)
Class Numeric (F : Type) := {
  lit  : Z -> F;            (* an integer literal of the source: 2, 3, 4, 8 *)
  half : F;                 (* the literal 0.5 *)
  pi   : F;                 (* np.pi *)
  add  : F -> F -> F;
  sub  : F -> F -> F;
  mul  : F -> F -> F;
  div  : F -> F -> F;
  neg  : F -> F;
  sqrt : F -> F;            (* np.sqrt *)
  fabs : F -> F;            (* np.abs *)
  ltb  : F -> F -> bool;    (* < *)
  eqb  : F -> F -> bool     (* == *)
}.

(** What [scipy.special] and the C library provide. *)
Class Special (F : Type) := {
  powi      : F -> Z -> F;      (* pow(x, n), n an integer literal *)
  arcsin    : F -> F;           (* np.arcsin *)
  ellipk    : F -> F;           (* complete, first kind, parameter m *)
  ellipe    : F -> F;           (* complete, second kind, parameter m *)
  ellipkinc : F -> F -> F;      (* incomplete, first kind: (phi, m) *)
  ellipeinc : F -> F -> F       (* incomplete, second kind: (phi, m) *)
}.

Section Ufuncs.
Context {F : Type} {NF : Numeric F}.

(** [np.sign]: [x > 0 ? 1 : (x < 0 ? -1 : (x == 0 ? 0 : x))]. *)
Definition sign (x : F) : F :=
  if ltb (lit 0) x then lit 1
  else if ltb x (lit 0) then lit (-1)
  else if eqb x (lit 0) then lit 0
  else x.

(** [np.heaviside(x, h0)]: a NaN is returned as it is, [h0] at zero,
    0 below and 1 above. *)
Definition heaviside (x h0 : F) : F :=
  if negb (eqb x x) then x
  else if eqb x (lit 0) then h0
  else if ltb x (lit 0) then lit 0
  else lit 1.
End Ufuncs.

(* ================================================================== *)
(** * NumPy values and broadcasting *)

(** A value is a scalar or a one-dimensional array. *)
Inductive nd (F : Type) : Type :=
| Sc (x : F)
| Ar (l : list F).
Arguments Sc {F} x.
Arguments Ar {F} l.

Section Broadcast.
Context {F : Type}.

(** A binary operator: a scalar is broadcast against an array, two
    arrays are combined elementwise.  The arrays of one call are rows
    of one matrix and have the same length. *)
Definition bin (f : F -> F -> F) (a b : nd F) : nd F :=
  match a, b with
  | Sc x, Sc y => Sc (f x y)
  | Sc x, Ar k => Ar (fmap (f x) k)
  | Ar l, Sc y => Ar (fmap (fun x => f x y) l)
  | Ar l, Ar k => Ar (zip_with f l k)
  end.

(** A unary function. *)
Definition un (f : F -> F) (a : nd F) : nd F :=
  match a with
  | Sc x => Sc (f x)
  | Ar l => Ar (fmap f l)
  end.

End Broadcast.

Section Operators.
Context {F : Type} {NF : Numeric F} {SF : Special F}.

(** [a ** n] for an integer literal [n].  On an array, NumPy computes
    the exponent 2 as [x * x]; the other powers are the library's. *)
Definition power (a : nd F) (n : Z) : nd F :=
  match a with
  | Sc x => Sc (powi x n)
  | Ar l => if (n =? 2)%Z then Ar (fmap (fun x => mul x x) l)
            else Ar (fmap (fun x => powi x n) l)
  end.
End Operators.

Declare Scope nd_scope.
Delimit Scope nd_scope with nd.
Bind Scope nd_scope with nd.
Notation "# n" := (Sc (lit n)) (at level 1, format "# n") : nd_scope.
Notation "a + b" := (bin add a b) : nd_scope.
Notation "a - b" := (bin sub a b) : nd_scope.
Notation "a * b" := (bin mul a b) : nd_scope.
Notation "a / b" := (bin div a b) : nd_scope.
Notation "- a" := (un neg a) : nd_scope.
Notation "a ** n" := (power a n) (at level 30, right associativity) : nd_scope.

(* ================================================================== *)
(** * The integral kernels *)

Section Kernels.
Context {F : Type} {NF : Numeric F} {SF : Special F}.
Local Open Scope nd_scope.

Definition np_pi : nd F := Sc pi.
Definition np_sqrt : nd F -> nd F := un sqrt.
Definition np_abs : nd F -> nd F := un fabs.
Definition np_sign : nd F -> nd F := un sign.
Definition np_arcsin : nd F -> nd F := un arcsin.
Definition np_heaviside (x : nd F) (h0 : F) : nd F :=
  un (fun v => heaviside v h0) x.
Definition np_ellipk : nd F -> nd F := un ellipk.
Definition np_ellipe : nd F -> nd F := un ellipe.
Definition np_ellipkinc : nd F -> nd F -> nd F := bin ellipkinc.
Definition np_ellipeinc : nd F -> nd F -> nd F := bin ellipeinc.

(** The parameter of the elliptic integrals,
    [m = 4*R*r/(q**2 + (r+R)**2)]: the first statement of each of the
    five kernels. *)
Definition modulus (q r R : nd F) : nd F :=
  #4 * R * r / (q ** 2 + (r + R) ** 2).

(** Integral I1. *)
Definition Int1 (q r R : nd F) : nd F :=
  let m := modulus q r R in
  let K := np_ellipk m in
  let E0 := np_ellipe m in
  #2 * ((#1 - (m / #2)) * K - E0) / (np_pi * np_sqrt (m * r * R)).

(** Integral I2. *)
Definition Int2 (q r R : nd F) : nd F :=
  let m := modulus q r R in
  let K := np_ellipk m in
  let E0 := np_ellipe m in
  q * np_sqrt m * ((#1 - m / #2) * E0 / (#1 - m) - K)
    / (#2 * np_pi * np_sqrt (r * R) ** 3).

(** Integral I3. *)
Definition Int3 (q r R : nd F) : nd F :=
  let m := modulus q r R in
  let K0 := np_ellipk m in
  let K1 := np_ellipk (#1 - m) in
  let E0 := np_ellipe m in
  let E1 := np_ellipe (#1 - m) in
  let beta := np_arcsin (q / np_sqrt (q ** 2 + (R - r) ** 2)) in
  let K2 := np_ellipkinc beta (#1 - m) in
  let E2 := np_ellipeinc beta (#1 - m) in
  let Z := E2 - E1 * K2 / K1 in
  let lamb := K2 / K1 + #2 * K0 * Z / np_pi in
  - q * np_sqrt m * K0 / (#2 * np_pi * R * np_sqrt (r * R))
    + (np_heaviside (r - R) half - np_heaviside (R - r) half) * lamb
        / (#2 * R)
    + np_heaviside (R - r) half / R.

(** Integral I4. *)
Definition Int4 (q r R : nd F) : nd F :=
  let m := modulus q r R in
  let K0 := np_ellipk m in
  let E0 := np_ellipe m in
  np_sqrt m ** 3 * (R ** 2 - r ** 2 - q ** 2) * E0
      / (#8 * np_pi * np_sqrt (r * R) ** 3 * R * (#1 - m))
    + np_sqrt m * K0 / (#2 * np_pi * R * np_sqrt (r * R)).

(** Integral I6. *)
Definition Int6 (q r R : nd F) : nd F :=
  let m := modulus q r R in
  let K0 := np_ellipk m in
  let E0 := np_ellipe m in
  q * np_sqrt m ** 3
      * (#3 * E0
         + m * (R ** 2 - r ** 2 - q ** 2)
             * ((#1 - m / #2) * E0 / (#1 - m) - K0 / #4) / (r * R))
    / (#8 * np_pi * np_sqrt (r * R) ** 3 * R * (#1 - m)).
End Kernels.

(* ================================================================== *)
(** * Python values, objects and the store *)

Definition loc := nat.

(** What a Python variable holds: a float (immutable), or a reference to
    an object of the store. *)
Inductive pyvalue (F : Type) : Type :=
| VFloat (x : F)
| VRef (l : loc).
Arguments VFloat {F} x.
Arguments VRef {F} l.

(** The objects of the store: a two-dimensional ndarray (its rows), a
    one-dimensional ndarray, a Python list of floats. *)
Inductive object (F : Type) : Type :=
| Ndarray2 (rows : list (list F))
| Ndarray1 (data : list F)
| PyList (items : list F).
Arguments Ndarray2 {F} rows.
Arguments Ndarray1 {F} data.
Arguments PyList {F} items.

Inductive exn : Type :=
| AssertionError (msg : string)
| TypeError
| AttributeError
| ValueError
| IndexError
| ZeroDivisionError.

Abbreviation store F := (list (object F)) (only parsing).

(** A computation reads and updates the store, and returns a value or
    raises; the store survives an exception. *)
Definition M (F A : Type) : Type := store F -> (exn + A) * store F.

Definition ret {F A} (a : A) : M F A := fun s => (inr a, s).
Definition raise {F A} (e : exn) : M F A := fun s => (inl e, s).
Definition bind {F A B} (c : M F A) (k : A -> M F B) : M F B :=
  fun s => match c s with
           | (inl e, s') => (inl e, s')
           | (inr a, s') => k a s'
           end.

Notation "x <- c1 ;; c2" := (bind c1 (fun x => c2))
  (at level 20, c1 at level 99, c2 at level 200, only parsing).
Notation "c1 ;; c2" := (bind c1 (fun _ => c2))
  (at level 100, c2 at level 200, only parsing, right associativity).

Section Primitives.
Context {F : Type} {NF : Numeric F}.

(** The object a value refers to. *)
Definition deref (v : pyvalue F) (s : store F) : option (object F) :=
  match v with
  | VFloat _ => None
  | VRef l => s !! l
  end.

(** [assert b, msg]. *)
Definition assert_ (b : bool) (msg : string) : M F unit :=
  if b then ret tt else raise (AssertionError msg).

(** [len(v)]. *)
Definition len (v : pyvalue F) : M F nat := fun s =>
  match deref v s with
  | Some (PyList items) => (inr (length items), s)
  | Some (Ndarray1 data) => (inr (length data), s)
  | Some (Ndarray2 rows) => (inr (length rows), s)
  | None => (inl TypeError, s)
  end.

(** [v.shape[0]]. *)
Definition shape0 (v : pyvalue F) : M F nat := fun s =>
  match deref v s with
  | Some (Ndarray2 rows) => (inr (length rows), s)
  | Some (Ndarray1 data) => (inr (length data), s)
  | Some (PyList _) | None => (inl AttributeError, s)
  end.

(** [np.isscalar(v)]. *)
Definition isscalar (v : pyvalue F) : bool :=
  match v with
  | VFloat _ => true
  | VRef _ => false
  end.

(** [a, b, c, d, e = v]. *)
Definition unpack5 (v : pyvalue F)
  : M F (nd F * nd F * nd F * nd F * nd F) := fun s =>
  match deref v s with
  | Some (PyList [a; b; c; d; e]) | Some (Ndarray1 [a; b; c; d; e]) =>
      (inr (Sc a, Sc b, Sc c, Sc d, Sc e), s)
  | Some (Ndarray2 [a; b; c; d; e]) =>
      (inr (Ar a, Ar b, Ar c, Ar d, Ar e), s)
  | Some _ => (inl ValueError, s)
  | None => (inl TypeError, s)
  end.

(** [v[i]], read as an operand: a row of a matrix, an element of an
    array or of a list. *)
Definition getitem (v : pyvalue F) (i : nat) : M F (nd F) := fun s =>
  match deref v s with
  | Some (Ndarray2 rows) =>
      match rows !! i with
      | Some row => (inr (Ar row), s)
      | None => (inl IndexError, s)
      end
  | Some (Ndarray1 data) | Some (PyList data) =>
      match data !! i with
      | Some x => (inr (Sc x), s)
      | None => (inl IndexError, s)
      end
  | None => (inl TypeError, s)
  end.

(** A variable read as an operand. *)
Definition read (v : pyvalue F) : M F (nd F) := fun s =>
  match v with
  | VFloat x => (inr (Sc x), s)
  | VRef l =>
      match s !! l with
      | Some (Ndarray1 data) => (inr (Ar data), s)
      | _ => (inl TypeError, s)
      end
  end.

(** The result of an expression, bound to a variable: an array is a
    new object of the store, a scalar is a value. *)
Definition new (a : nd F) : M F (pyvalue F) := fun s =>
  match a with
  | Sc x => (inr (VFloat x), s)
  | Ar l => (inr (VRef (length s)), s ++ [Ndarray1 l])
  end.

(** [v *= c]: an array is updated in place and [v] still refers to
    it; a float is immutable and [v] is bound to the product. *)
Definition imul (v : pyvalue F) (c : nd F) : M F (pyvalue F) := fun s =>
  match v with
  | VFloat x =>
      match bin mul (Sc x) c with
      | Sc y => (inr (VFloat y), s)
      | Ar l => (inr (VRef (length s)), s ++ [Ndarray1 l])
      end
  | VRef l =>
      match s !! l with
      | Some (Ndarray1 data) =>
          match bin mul (Ar data) c with
          | Ar data' => (inr (VRef l), <[l := Ndarray1 data']> s)
          | Sc _ => (inl TypeError, s)
          end
      | _ => (inl TypeError, s)
      end
  end.
End Primitives.

(* ================================================================== *)
(** * The public functions *)

Section Model.
Context {F : Type} {NF : Numeric F} {SF : Special F}.

(** The compaction coefficient [Cm(poisson, young)] is imported from the
    module [compaction], which is not part of the embedded file: it is
    a parameter, a function of the two material constants. *)
Variable Cm : F -> F -> F.

Local Open Scope nd_scope.

(** Shear modulus in MPa.  Both arguments are Python floats when the
    public functions call it, and a float division by zero raises. *)
Definition G (poisson young : nd F) : M F (nd F) :=
  let d := #2 * (#1 + poisson) in
  match young, d with
  | Sc _, Sc x =>
      if eqb x (lit 0) then raise ZeroDivisionError else ret (young / d)
  | _, _ => ret (young / d)
  end.

Definition Geertsma_disk_displacement
    (coordinates disk pressure poisson young : pyvalue F)
  : M F (pyvalue F * pyvalue F) :=
  n <- len disk ;;
  assert_ (n =? 5)%nat "disk must contain y0, x0, D, R, and h" ;;
  k <- shape0 coordinates ;;
  assert_ (k =? 3)%nat "coordinates must have 3 rows" ;;
  assert_ (isscalar pressure) "pressure must be a scalar" ;;
  assert_ (isscalar poisson) "poisson must be a scalar" ;;
  assert_ (isscalar young) "young must be a scalar" ;;
  pressure <- read pressure ;;
  poisson <- read poisson ;;
  young <- read young ;;

  items <- unpack5 disk ;;
  let '(y0, x0, D, R, h) := items in

  c0 <- getitem coordinates 0 ;;
  Y <- new (c0 - y0) ;;
  c1 <- getitem coordinates 1 ;;
  X <- new (c1 - x0) ;;
  c2 <- getitem coordinates 2 ;;
  Z <- new (c2 - D) ;;

  vY <- read Y ;; vX <- read X ;; vZ <- read Z ;;
  r <- new (np_sqrt (vY ** 2 + vX ** 2 + vZ ** 2)) ;;

  vZ <- read Z ;;
  Z2 <- new (vZ + #2 * D) ;;

  (* radial component *)
  vZ <- read Z ;; vr <- read r ;; vZ2 <- read Z2 ;;
  c2 <- getitem coordinates 2 ;;
  ur <- new (- pressure * (
               Int1 (np_abs vZ) vr R
               + (#3 - #4 * poisson) * Int1 vZ2 vr R
               - #2 * c2 * Int2 vZ2 vr R)) ;;

  (* vertical component *)
  vZ <- read Z ;; vr <- read r ;; vZ2 <- read Z2 ;;
  c2 <- getitem coordinates 2 ;;
  uz <- new (pressure * (
               np_sign vZ * Int3 (np_abs vZ) vr R
               - (#3 - #4 * poisson) * Int3 vZ2 vr R
               - #2 * c2 * Int4 vZ2 vr R)) ;;

  ur <- imul ur (bin Cm poisson young * R * h / #2) ;;
  uz <- imul uz (bin Cm poisson young * R * h / #2) ;;

  ret (ur, uz).

Definition Geertsma_disk_stress
    (coordinates disk pressure poisson young : pyvalue F)
  : M F (pyvalue F * pyvalue F * pyvalue F) :=
  n <- len disk ;;
  assert_ (n =? 5)%nat "disk must contain y0, x0, D, R, and h" ;;
  k <- shape0 coordinates ;;
  assert_ (k =? 3)%nat "coordinates must have 3 rows" ;;
  assert_ (isscalar pressure) "pressure must be a scalar" ;;
  assert_ (isscalar poisson) "poisson must be a scalar" ;;
  assert_ (isscalar young) "young must be a scalar" ;;
  pressure <- read pressure ;;
  poisson <- read poisson ;;
  young <- read young ;;

  items <- unpack5 disk ;;
  let '(y0, x0, D, R, h) := items in

  c0 <- getitem coordinates 0 ;;
  Y <- new (c0 - y0) ;;
  c1 <- getitem coordinates 1 ;;
  X <- new (c1 - x0) ;;
  c2 <- getitem coordinates 2 ;;
  Z <- new (c2 - D) ;;

  vY <- read Y ;; vX <- read X ;; vZ <- read Z ;;
  r <- new (np_sqrt (vY ** 2 + vX ** 2 + vZ ** 2)) ;;

  vZ <- read Z ;;
  Z2 <- new (vZ + #2 * D) ;;

  (* radial component *)
  vZ <- read Z ;; vr <- read r ;; vZ2 <- read Z2 ;;
  c2 <- getitem coordinates 2 ;;
  sr <- new (pressure * (
               Int4 (np_abs vZ) vr R
               + #3 * Int4 vZ2 vr R
               - #2 * c2 * Int6 vZ2 vr R
               - Int1 (np_abs vZ) vr R / vr
               + (#3 - #4 * poisson) * Int1 vZ2 vr R / vr
               - #2 * c2 * Int2 vZ2 vr R / vr)) ;;

  (* tangential component *)
  vZ <- read Z ;; vr <- read r ;; vZ2 <- read Z2 ;;
  c2 <- getitem coordinates 2 ;;
  st <- new (pressure * (
               #4 * poisson * Int4 vZ2 vr R
               + Int1 (np_abs vZ) vr R / vr
               + (#3 - #4 * poisson) * Int1 vZ2 vr R / vr
               - #2 * c2 * Int2 vZ2 vr R / vr)) ;;

  (* vertical component *)
  vZ <- read Z ;; vr <- read r ;; vZ2 <- read Z2 ;;
  c2 <- getitem coordinates 2 ;;
  sz <- new (- pressure * (
               - Int4 (np_abs vZ) vr R
               + Int4 vZ2 vr R
               + #2 * c2 * Int6 vZ2 vr R)) ;;

  g <- G poisson young ;;
  let aux := g * bin Cm poisson young * R * h in

  sr <- imul sr aux ;;
  st <- imul st aux ;;
  sz <- imul sz aux ;;

  ret (sr, st, sz).
End Model.

(* ================================================================== *)
(** * Two arithmetics *)

(** ** Exact arithmetic: the real numbers *)

Definition Rltb (x y : R) : bool := if Rlt_dec x y then true else false.
Definition Reqb (x y : R) : bool := if Req_dec_T x y then true else false.

#[export] Instance R_numeric : Numeric R := {|
  lit := IZR;
  half := 0.5%R;
  pi := PI;
  add := Rplus;
  sub := Rminus;
  mul := Rmult;
  div := Rdiv;
  neg := Ropp;
  sqrt := R_sqrt.sqrt;
  fabs := Rabs;
  ltb := Rltb;
  eqb := Reqb
|}.

(** The elliptic integrals are those of the library, whatever they are;
    the power and the arc sine are the real ones. *)
Definition R_special (K E : R -> R) (Finc Einc : R -> R -> R) : Special R := {|
  powi := powerRZ;
  arcsin := asin;
  ellipk := K;
  ellipe := E;
  ellipkinc := Finc;
  ellipeinc := Einc
|}.

(** ** Machine arithmetic: IEEE-754 binary64 *)

(** An integer literal as a float (the literals are small). *)
Definition float_of_Z (z : Z) : float :=
  match z with
  | Z0 => 0%float
  | Zpos _ => PrimFloat.of_uint63 (Uint63.of_Z z)
  | Zneg p => PrimFloat.opp (PrimFloat.of_uint63 (Uint63.of_Z (Zpos p)))
  end.

#[export] Instance float_numeric : Numeric float := {|
  lit := float_of_Z;
  half := 0.5%float;
  pi := 0x1.921fb54442d18p+1%float;
  add := PrimFloat.add;
  sub := PrimFloat.sub;
  mul := PrimFloat.mul;
  div := PrimFloat.div;
  neg := PrimFloat.opp;
  sqrt := PrimFloat.sqrt;
  fabs := PrimFloat.abs;
  ltb := PrimFloat.ltb;
  eqb := PrimFloat.eqb
|}.

(* ================================================================== *)
(** * Definitions for the statements *)

(** ** Evaluation at one point *)

(** The restriction of a value to the point [i]: a scalar is kept, an
    array becomes the one-element array of its [i]-th element. *)
Definition pt {F : Type} (i : nat) (a : nd F) : nd F :=
  match a with
  | Sc x => Sc x
  | Ar l => Ar (option_list (l !! i))
  end.

(** The elements of an array (of a scalar: itself). *)
Definition data {F : Type} (a : nd F) : list F :=
  match a with
  | Sc x => [x]
  | Ar l => l
  end.

Definition isarray {F : Type} (a : nd F) : bool :=
  match a with
  | Sc _ => false
  | Ar _ => true
  end.

Section PointKernels.
Context {F : Type} {NF : Numeric F} {SF : Special F}.

(** The value of a one-point array. *)
Definition the (a : nd F) : F :=
  match a with
  | Sc v => v
  | Ar [v] => v
  | Ar _ => lit 0
  end.

(** The kernels of the source at one point [(q, r)], for the radius
    [R]: the code runs on the one-element arrays. *)
Definition I1 (q r R : F) : F := the (Int1 (Ar [q]) (Ar [r]) (Sc R)).
Definition I2 (q r R : F) : F := the (Int2 (Ar [q]) (Ar [r]) (Sc R)).
Definition I3 (q r R : F) : F := the (Int3 (Ar [q]) (Ar [r]) (Sc R)).
Definition I4 (q r R : F) : F := the (Int4 (Ar [q]) (Ar [r]) (Sc R)).
Definition I6 (q r R : F) : F := the (Int6 (Ar [q]) (Ar [r]) (Sc R)).

(** The parameter [m] at one point. *)
Definition m_at (q r R : F) : F := the (modulus (Ar [q]) (Ar [r]) (Sc R)).
End PointKernels.

(** ** The values a call computes

    As expressions of the rows [ys], [xs], [zs] of the coordinates, of
    the disk and of the scalars; [displacement_run] and [stress_run]
    show that these are the arrays the code stores. *)
Section Values.
Context {F : Type} {NF : Numeric F} {SF : Special F}.
Variable Cm : F -> F -> F.
Local Open Scope nd_scope.

Definition val_Y (ys : list F) (y0 : F) : nd F := Ar ys - Sc y0.
Definition val_X (xs : list F) (x0 : F) : nd F := Ar xs - Sc x0.
Definition val_Z (zs : list F) (D : F) : nd F := Ar zs - Sc D.
Definition val_r (Y X Z : nd F) : nd F :=
  np_sqrt (Y ** 2 + X ** 2 + Z ** 2).
Definition val_Z2 (Z : nd F) (D : F) : nd F := Z + #2 * Sc D.

Definition val_ur (p nu R : F) (z Z r Z2 : nd F) : nd F :=
  - Sc p * (Int1 (np_abs Z) r (Sc R)
            + (#3 - #4 * Sc nu) * Int1 Z2 r (Sc R)
            - #2 * z * Int2 Z2 r (Sc R)).
Definition val_uz (p nu R : F) (z Z r Z2 : nd F) : nd F :=
  Sc p * (np_sign Z * Int3 (np_abs Z) r (Sc R)
          - (#3 - #4 * Sc nu) * Int3 Z2 r (Sc R)
          - #2 * z * Int4 Z2 r (Sc R)).
Definition val_scale (nu E R h : F) : nd F :=
  Sc (Cm nu E) * Sc R * Sc h / #2.

Definition val_sr (p nu R : F) (z Z r Z2 : nd F) : nd F :=
  Sc p * (Int4 (np_abs Z) r (Sc R)
          + #3 * Int4 Z2 r (Sc R)
          - #2 * z * Int6 Z2 r (Sc R)
          - Int1 (np_abs Z) r (Sc R) / r
          + (#3 - #4 * Sc nu) * Int1 Z2 r (Sc R) / r
          - #2 * z * Int2 Z2 r (Sc R) / r).
Definition val_st (p nu R : F) (z Z r Z2 : nd F) : nd F :=
  Sc p * (#4 * Sc nu * Int4 Z2 r (Sc R)
          + Int1 (np_abs Z) r (Sc R) / r
          + (#3 - #4 * Sc nu) * Int1 Z2 r (Sc R) / r
          - #2 * z * Int2 Z2 r (Sc R) / r).
Definition val_sz (p nu R : F) (z Z r Z2 : nd F) : nd F :=
  - Sc p * (- Int4 (np_abs Z) r (Sc R)
            + Int4 Z2 r (Sc R)
            + #2 * z * Int6 Z2 r (Sc R)).
Definition val_aux (nu E R h : F) : nd F :=
  Sc E / (#2 * (#1 + Sc nu)) * Sc (Cm nu E) * Sc R * Sc h.
End Values.

(** ** The scalar formulas of one evaluation point *)

Declare Scope num_scope.
Delimit Scope num_scope with num.
Notation "a + b" := (add a b) : num_scope.
Notation "a - b" := (sub a b) : num_scope.
Notation "a * b" := (mul a b) : num_scope.
Notation "a / b" := (div a b) : num_scope.
Notation "- a" := (neg a) : num_scope.
Notation "# n" := (lit n) (at level 1, format "# n") : num_scope.

(** The values at the point [(y, x, z)], in the arithmetic [F] and with
    the grouping of the source. *)
Section PointFormulas.
Context {F : Type} {NF : Numeric F} {SF : Special F}.
Variable Cm : F -> F -> F.
Variables (y0 x0 D R h p nu E : F).
Local Open Scope num_scope.

Definition point_Y (y : F) : F := y - y0.
Definition point_X (x : F) : F := x - x0.
Definition point_Z (z : F) : F := z - D.
Definition point_r (y x z : F) : F :=
  sqrt (point_Y y * point_Y y + point_X x * point_X x
        + point_Z z * point_Z z).
Definition point_Z2 (z : F) : F := point_Z z + #2 * D.

Definition point_ur (y x z : F) : F :=
  let Z := point_Z z in
  let r := point_r y x z in
  let Z2 := point_Z2 z in
  - p * (I1 (fabs Z) r R + (#3 - #4 * nu) * I1 Z2 r R - #2 * z * I2 Z2 r R)
  * (Cm nu E * R * h / #2).

Definition point_uz (y x z : F) : F :=
  let Z := point_Z z in
  let r := point_r y x z in
  let Z2 := point_Z2 z in
  p * (sign Z * I3 (fabs Z) r R - (#3 - #4 * nu) * I3 Z2 r R
       - #2 * z * I4 Z2 r R)
  * (Cm nu E * R * h / #2).

Definition point_aux : F := E / (#2 * (#1 + nu)) * Cm nu E * R * h.

Definition point_sr (y x z : F) : F :=
  let Z := point_Z z in
  let r := point_r y x z in
  let Z2 := point_Z2 z in
  p * (I4 (fabs Z) r R + #3 * I4 Z2 r R - #2 * z * I6 Z2 r R
       - I1 (fabs Z) r R / r + (#3 - #4 * nu) * I1 Z2 r R / r
       - #2 * z * I2 Z2 r R / r)
  * point_aux.

Definition point_st (y x z : F) : F :=
  let Z := point_Z z in
  let r := point_r y x z in
  let Z2 := point_Z2 z in
  p * (#4 * nu * I4 Z2 r R + I1 (fabs Z) r R / r
       + (#3 - #4 * nu) * I1 Z2 r R / r - #2 * z * I2 Z2 r R / r)
  * point_aux.

Definition point_sz (y x z : F) : F :=
  let Z := point_Z z in
  let r := point_r y x z in
  let Z2 := point_Z2 z in
  - p * (- I4 (fabs Z) r R + I4 Z2 r R + #2 * z * I6 Z2 r R)
  * point_aux.
End PointFormulas.

(** ** What a call returns and allocates *)

Section Outcomes.
Context {F : Type}.

(** The call returned two arrays, whose elements are [a] and [b]. *)
Definition returns2 (out : (exn + pyvalue F * pyvalue F) * store F)
    (a b : list F) : Prop :=
  exists la lb s',
    out = (inr (VRef la, VRef lb), s')
    /\ s' !! la = Some (Ndarray1 a) /\ s' !! lb = Some (Ndarray1 b).

(** The call returned three arrays. *)
Definition returns3
    (out : (exn + pyvalue F * pyvalue F * pyvalue F) * store F)
    (a b c : list F) : Prop :=
  exists la lb lc s',
    out = (inr (VRef la, VRef lb, VRef lc), s')
    /\ s' !! la = Some (Ndarray1 a) /\ s' !! lb = Some (Ndarray1 b)
    /\ s' !! lc = Some (Ndarray1 c).

(** The five arrays [Y], [X], [Z], [r], [Z2] are the first objects a
    call allocates: [n] is the size of the store at the call, and the
    last five arguments are the values of the arrays at point [i]. *)
Definition geometry_at (s' : store F) (n i : nat) (Y X Z r Z2 : F) : Prop :=
  exists aY aX aZ ar aZ2,
    s' !! n = Some (Ndarray1 aY) /\ s' !! (n + 1) = Some (Ndarray1 aX)
    /\ s' !! (n + 2) = Some (Ndarray1 aZ)
    /\ s' !! (n + 3) = Some (Ndarray1 ar)
    /\ s' !! (n + 4) = Some (Ndarray1 aZ2)
    /\ aY !! i = Some Y /\ aX !! i = Some X /\ aZ !! i = Some Z
    /\ ar !! i = Some r /\ aZ2 !! i = Some Z2.
End Outcomes.

(** ** The store of the caller *)

Section Frames.
Context {F : Type}.
Variable s0 : store F.

(** [s0] is the store at the call; a later store [s] extends it when
    the objects of [s0] are still there, unchanged. *)
Definition extends (s : store F) : Prop := take (length s0) s = s0.

(** A value that refers to no object of the store of the call. *)
Definition fresh (v : pyvalue F) : Prop :=
  match v with
  | VFloat _ => True
  | VRef l => length s0 <= l
  end.

(** The computation [c] keeps the objects of [s0], and its result
    satisfies [Q]. *)
Definition keeps {A} (c : M F A) (Q : A -> Prop) : Prop :=
  forall s, extends s ->
    extends (snd (c s)) /\ forall a, fst (c s) = inr a -> Q a.
End Frames.

(** ** The preconditions *)

Section Preconditions.
Context {F : Type}.

(** A precondition of the public functions is violated. *)
Definition violated (rows : list (list F)) (items : list F)
    (pressure poisson young : pyvalue F) : Prop :=
  length items <> 5 \/ length rows <> 3
  \/ isscalar pressure = false \/ isscalar poisson = false
  \/ isscalar young = false.

(** The message of the first precondition that fails, in the order of
    the assertions. *)
Definition first_failure (rows : list (list F)) (items : list F)
    (pressure poisson young : pyvalue F) : option string :=
  if negb (length items =? 5) then
    Some "disk must contain y0, x0, D, R, and h"%string
  else if negb (length rows =? 3) then
    Some "coordinates must have 3 rows"%string
  else if negb (isscalar pressure) then
    Some "pressure must be a scalar"%string
  else if negb (isscalar poisson) then
    Some "poisson must be a scalar"%string
  else if negb (isscalar young) then
    Some "young must be a scalar"%string
  else None.
End Preconditions.

(** ** Negation *)

(** The law of the negation the public functions rely on.  It holds in
    exact arithmetic and in IEEE-754 arithmetic, where negating flips
    the sign bit and rounding is symmetric. *)
Class NegLaws (F : Type) {NF : Numeric F} : Prop := {
  mul_neg_l : forall a b : F, mul (neg a) b = neg (mul a b)
}.

(** ** Concrete inputs *)

(** A store with a matrix of two points, [(3, 4, 0)] and [(0, 5, 0)], at
    location 0 and the disk [(0, 0, 1000, 500, 50)] at location 1; the
    pressure is -10, poisson 0.25 and young 10000. *)
Definition sample_store : store R :=
  [Ndarray2 [[3; 0]; [4; 5]; [0; 0]]; PyList [0; 0; 1000; 500; 50]]%R.

(** The same store in binary64. *)
Definition sample_store64 : store float :=
  [Ndarray2 [[3; 0]; [4; 5]; [0; 0]]; PyList [0; 0; 1000; 500; 50]]%float.

(** Stand-ins for the library functions and for [Cm], to run the
    statements on the sample inputs: no hypothesis of a statement
    depends on them. *)
Definition sample_special : Special R :=
  R_special (fun m => m) (fun m => m) (fun _ m => m) (fun _ m => m).
Definition sample_Cm : R -> R -> R := fun nu E => (nu / E)%R.

Definition sample_special64 : Special float := {|
  powi := fun x n => (x * x * x)%float;
  arcsin := fun x => x;
  ellipk := fun m => m;
  ellipe := fun m => m;
  ellipkinc := fun _ m => m;
  ellipeinc := fun _ m => m
|}.
Definition sample_Cm64 : float -> float -> float :=
  fun nu E => (nu / E)%float.

(** ** The evaluation points *)

(** The evaluation points of a coordinate matrix are its columns
    [(y, x, z)]. *)
Definition points {F : Type} (ys xs zs : list F) : list (F * F * F) :=
  zip (zip ys xs) zs.

(** A function of the three coordinates, at a point. *)
Definition at_point {F A : Type} (f : F -> F -> F -> A) (P : F * F * F) : A :=
  let '(y, x, z) := P in f y x z.

(** ** The two parts of the kernel I3 *)

Section StepTerms.
Context {F : Type} {NF : Numeric F} {SF : Special F}.
Local Open Scope num_scope.

(** Heuman's lambda function as [Int3] computes it at one point, from
    the statement [m = ...] to the statement [lamb = ...]. *)
Definition heuman_lambda (q r R : F) : F :=
  let m := m_at q r R in
  let K0 := ellipk m in
  let K1 := ellipk (#1 - m) in
  let E1 := ellipe (#1 - m) in
  let beta := arcsin (q / sqrt (q * q + (R - r) * (R - r))) in
  let K2 := ellipkinc beta (#1 - m) in
  let E2 := ellipeinc beta (#1 - m) in
  let Z := E2 - E1 * K2 / K1 in
  K2 / K1 + #2 * K0 * Z / pi.

(** The first term of [I3], the one without a step function. *)
Definition I3_regular (q r R : F) : F :=
  let m := m_at q r R in
  - q * sqrt m * ellipk m / (#2 * pi * R * sqrt (r * R)).
End StepTerms.

(** ** Values of binary64 that are not numbers *)

(** An infinity or NaN: what [np.isfinite] rejects. *)
Definition nonfinite (x : float) : bool :=
  match Prim2SF x with
  | S754_nan | S754_infinity _ => true
  | _ => false
  end.

(** A zero of either sign, or NaN. *)
Definition zero_or_nan (x : float) : bool :=
  match Prim2SF x with
  | S754_nan | S754_zero _ => true
  | _ => false
  end.

(** ** More concrete inputs *)

(** The sample store and, at location 2, the point [(3, 4, 0)] as a
    one-dimensional array. *)
Definition sample_heap : store R :=
  (sample_store ++ [Ndarray1 [3; 4; 0]])%R.

(** The sample store in binary64, followed by: the two points of its
    matrix as two matrices (locations 2 and 3), a matrix without points
    (4), the disk as an array (5), a Python list (6), and at locations 7
    and 8 a matrix and a disk [(0, 0, 1, 1, 1)] such that the first
    point is the centre of the disk and the second, [(1, 0, 1 + 2^-30)],
    is next to its rim. *)
Definition sample_heap64 : store float :=
  sample_store64
  ++ [Ndarray2 [[3]; [4]; [0]]; Ndarray2 [[0]; [5]; [0]];
      Ndarray2 [[]; []; []];
      Ndarray1 [0; 0; 1000; 500; 50];
      PyList [3; 4; 0];
      Ndarray2 [[0; 1]; [0; 0]; [1; 0x1.00000004p+0]];
      PyList [0; 0; 1; 1; 1]]%float.

(** NaN: what [np.isnan] accepts. *)
Definition isnan (x : float) : bool :=
  match Prim2SF x with
  | S754_nan => true
  | _ => false
  end.



(* ================================================================== *)
(** * Working point by point *)

Section PointFacts.
Context {F : Type} {NF : Numeric F} {SF : Special F}.

Lemma pt_bin (f : F -> F -> F) i a b :
  pt i (bin f a b) = bin f (pt i a) (pt i b).
Proof.
  destruct a as [x|l], b as [y|k]; simpl; try reflexivity.
  - rewrite list_lookup_fmap. now destruct (k !! i).
  - rewrite list_lookup_fmap. now destruct (l !! i).
  - rewrite lookup_zip_with.
    destruct (l !! i); simpl; [|reflexivity].
    now destruct (k !! i).
Qed.

Lemma pt_un (f : F -> F) i a : pt i (un f a) = un f (pt i a).
Proof.
  destruct a as [x|l]; simpl; [reflexivity|].
  rewrite list_lookup_fmap. now destruct (l !! i).
Qed.

Lemma pt_power i a n : pt i (power a n) = power (pt i a) n.
Proof.
  destruct a as [x|l]; simpl; [reflexivity|].
  destruct (n =? 2)%Z; simpl; rewrite list_lookup_fmap;
    now destruct (l !! i).
Qed.

Lemma pt_Sc i (x : F) : pt i (Sc x) = Sc x.
Proof. reflexivity. Qed.

Lemma pt_Ar_Some i (l : list F) x : l !! i = Some x -> pt i (Ar l) = Ar [x].
Proof. intros E. simpl. now rewrite E. Qed.

Lemma pt_one i (a : nd F) v : pt i a = Ar [v] -> data a !! i = Some v.
Proof.
  destruct a as [x|l]; simpl; [discriminate|].
  destruct (l !! i); simpl; congruence.
Qed.

Lemma Ar_data (a : nd F) : isarray a = true -> Ar (data a) = a.
Proof. now destruct a. Qed.
End PointFacts.

Create Rewrite HintDb pt.
#[global] Hint Rewrite @pt_bin @pt_un @pt_power @pt_Sc : pt.

Section KernelFacts.
Context {F : Type} {NF : Numeric F} {SF : Special F}.

Ltac kernel_pt :=
  intros;
  unfold Int1, Int2, Int3, Int4, Int6, modulus, np_sqrt, np_abs, np_sign,
    np_arcsin, np_heaviside, np_ellipk, np_ellipe, np_ellipkinc,
    np_ellipeinc, np_pi;
  cbv zeta; autorewrite with pt; reflexivity.

(** Each kernel works point by point. *)
Lemma pt_Int1 i q r R : pt i (Int1 q r R) = Int1 (pt i q) (pt i r) (pt i R).
Proof. kernel_pt. Qed.
Lemma pt_Int2 i q r R : pt i (Int2 q r R) = Int2 (pt i q) (pt i r) (pt i R).
Proof. kernel_pt. Qed.
Lemma pt_Int3 i q r R : pt i (Int3 q r R) = Int3 (pt i q) (pt i r) (pt i R).
Proof. kernel_pt. Qed.
Lemma pt_Int4 i q r R : pt i (Int4 q r R) = Int4 (pt i q) (pt i r) (pt i R).
Proof. kernel_pt. Qed.
Lemma pt_Int6 i q r R : pt i (Int6 q r R) = Int6 (pt i q) (pt i r) (pt i R).
Proof. kernel_pt. Qed.

(** A kernel at a one-point array is the one-point array of its
    value there. *)
Lemma Int1_point q r R : Int1 (Ar [q]) (Ar [r]) (Sc R) = Ar [I1 q r R].
Proof. reflexivity. Qed.
Lemma Int2_point q r R : Int2 (Ar [q]) (Ar [r]) (Sc R) = Ar [I2 q r R].
Proof. reflexivity. Qed.
Lemma Int3_point q r R : Int3 (Ar [q]) (Ar [r]) (Sc R) = Ar [I3 q r R].
Proof. reflexivity. Qed.
Lemma Int4_point q r R : Int4 (Ar [q]) (Ar [r]) (Sc R) = Ar [I4 q r R].
Proof. reflexivity. Qed.
Lemma Int6_point q r R : Int6 (Ar [q]) (Ar [r]) (Sc R) = Ar [I6 q r R].
Proof. reflexivity. Qed.
End KernelFacts.

(* ================================================================== *)
(** * Running the public functions *)

Section Steps.
Context {F : Type} {NF : Numeric F}.
Implicit Types (s t : store F) (l : loc).

Lemma bind_ok {A B} (c : M F A) (k : A -> M F B) s a s' :
  c s = (inr a, s') -> bind c k s = k a s'.
Proof. unfold bind. now intros ->. Qed.

Lemma bind_raise {A B} (c : M F A) (k : A -> M F B) s e s' :
  c s = (inl e, s') -> bind c k s = (inl e, s').
Proof. unfold bind. now intros ->. Qed.

Lemma lookup_old s t l : l < length s -> (s ++ t) !! l = s !! l.
Proof. apply lookup_app_l. Qed.

Lemma lookup_new s t k : (s ++ t) !! (length s + k) = t !! k.
Proof. rewrite lookup_app_r by lia. f_equal. lia. Qed.

Lemma len_list s t l items :
  s !! l = Some (PyList items) ->
  len (VRef l) (s ++ t) = (inr (length items), s ++ t).
Proof.
  intros E. unfold len, deref.
  rewrite lookup_old by (eapply lookup_lt_Some; eauto). now rewrite E.
Qed.

Lemma shape0_matrix s t l rows :
  s !! l = Some (Ndarray2 rows) ->
  shape0 (VRef l) (s ++ t) = (inr (length rows), s ++ t).
Proof.
  intros E. unfold shape0, deref.
  rewrite lookup_old by (eapply lookup_lt_Some; eauto). now rewrite E.
Qed.

Lemma unpack5_list s t l a b c d e :
  s !! l = Some (PyList [a; b; c; d; e]) ->
  unpack5 (VRef l) (s ++ t) = (inr (Sc a, Sc b, Sc c, Sc d, Sc e), s ++ t).
Proof.
  intros E. unfold unpack5, deref.
  rewrite lookup_old by (eapply lookup_lt_Some; eauto). now rewrite E.
Qed.

Lemma getitem_row s t l rows i row :
  s !! l = Some (Ndarray2 rows) -> rows !! i = Some row ->
  getitem (VRef l) i (s ++ t) = (inr (Ar row), s ++ t).
Proof.
  intros E Er. unfold getitem, deref.
  rewrite lookup_old by (eapply lookup_lt_Some; eauto).
  now rewrite E, Er.
Qed.

Lemma read_float (x : F) s : read (VFloat x) s = (inr (Sc x), s).
Proof. reflexivity. Qed.

Lemma read_new s t k a :
  t !! k = Some (Ndarray1 (data a)) -> isarray a = true ->
  read (VRef (length s + k)) (s ++ t) = (inr a, s ++ t).
Proof.
  intros E Ha. unfold read. rewrite lookup_new, E.
  now rewrite Ar_data.
Qed.

Lemma new_array s t a :
  isarray a = true ->
  new a (s ++ t)
  = (inr (VRef (length s + length t)), s ++ (t ++ [Ndarray1 (data a)])).
Proof.
  intros Ha. destruct a as [x|l]; [discriminate|]. simpl.
  now rewrite length_app, app_assoc.
Qed.

Lemma assert_true msg s : assert_ true msg s = (inr tt, s).
Proof. reflexivity. Qed.

Lemma imul_new s t k a c :
  t !! k = Some (Ndarray1 (data a)) -> isarray a = true ->
  imul (VRef (length s + k)) c (s ++ t)
  = (inr (VRef (length s + k)),
     s ++ <[k := Ndarray1 (data (bin mul a c))]> t).
Proof.
  intros E Ha. unfold imul. rewrite lookup_new, E.
  rewrite (Ar_data a Ha). destruct a as [x|l]; [discriminate|].
  destruct c; simpl; now rewrite insert_app_r.
Qed.
End Steps.

(** One statement of a run: the store is [s ++ t], [s] the store of the
    call and [t] what the call has allocated so far. *)
Ltac run_step :=
  first
    [ erewrite bind_ok by (eapply len_list; eassumption)
    | erewrite bind_ok by (eapply shape0_matrix; eassumption)
    | erewrite bind_ok by (apply assert_true)
    | erewrite bind_ok by (apply read_float)
    | erewrite bind_ok by (eapply unpack5_list; eassumption)
    | erewrite bind_ok by (eapply getitem_row; [eassumption|reflexivity])
    | erewrite bind_ok by (eapply new_array; reflexivity)
    | erewrite bind_ok by (eapply read_new; reflexivity)
    | erewrite bind_ok by (eapply imul_new; reflexivity) ];
  cbv beta iota; cbn [app length Nat.eqb isscalar].

Section Runs.
Context {F : Type} {NF : Numeric F} {SF : Special F}.
Variable Cm : F -> F -> F.

Variables (s : store F) (c d : loc).
Variables (ys xs zs : list F) (y0 x0 D R h p nu E : F).
Hypothesis Hc : s !! c = Some (Ndarray2 [ys; xs; zs]).
Hypothesis Hd : s !! d = Some (PyList [y0; x0; D; R; h]).

Let Y := val_Y ys y0.
Let X := val_X xs x0.
Let Z := val_Z zs D.
Let r := val_r Y X Z.
Let Z2 := val_Z2 Z D.

(** A call of the displacement function on a matrix of three rows, a
    disk of five floats and three floats returns, and allocates seven
    arrays: [Y], [X], [Z], [r], [Z2], and the two results. *)
Lemma displacement_run :
  Geertsma_disk_displacement Cm (VRef c) (VRef d)
    (VFloat p) (VFloat nu) (VFloat E) s
  = (inr (VRef (length s + 5), VRef (length s + 6)),
     s ++ [Ndarray1 (data Y); Ndarray1 (data X); Ndarray1 (data Z);
           Ndarray1 (data r); Ndarray1 (data Z2);
           Ndarray1 (data (bin mul (val_ur p nu R (Ar zs) Z r Z2)
                                   (val_scale Cm nu E R h)));
           Ndarray1 (data (bin mul (val_uz p nu R (Ar zs) Z r Z2)
                                   (val_scale Cm nu E R h)))]).
Proof using Hc Hd.
  unfold Geertsma_disk_displacement.
  rewrite <- (app_nil_r s) at 1.
  do 35 run_step.
  reflexivity.
Qed.

(** The shear modulus is computed unless [2*(1+poisson)] is zero. *)
Lemma G_ok t :
  eqb (mul (lit 2) (add (lit 1) nu)) (lit 0) = false ->
  G (Sc nu) (Sc E) t
  = (inr (bin div (Sc E)
            (bin mul (Sc (lit 2)) (bin add (Sc (lit 1)) (Sc nu)))), t).
Proof. intros Hg. unfold G. simpl. now rewrite Hg. Qed.

Lemma G_raises t :
  eqb (mul (lit 2) (add (lit 1) nu)) (lit 0) = true ->
  G (Sc nu) (Sc E) t = (inl ZeroDivisionError, t).
Proof. intros Hg. unfold G. simpl. now rewrite Hg. Qed.

(** A call of the stress function allocates eight arrays; it returns
    unless the shear modulus divides by zero. *)
Lemma stress_run :
  eqb (mul (lit 2) (add (lit 1) nu)) (lit 0) = false ->
  Geertsma_disk_stress Cm (VRef c) (VRef d)
    (VFloat p) (VFloat nu) (VFloat E) s
  = (inr (VRef (length s + 5), VRef (length s + 6), VRef (length s + 7)),
     s ++ [Ndarray1 (data Y); Ndarray1 (data X); Ndarray1 (data Z);
           Ndarray1 (data r); Ndarray1 (data Z2);
           Ndarray1 (data (bin mul (val_sr p nu R (Ar zs) Z r Z2)
                                   (val_aux Cm nu E R h)));
           Ndarray1 (data (bin mul (val_st p nu R (Ar zs) Z r Z2)
                                   (val_aux Cm nu E R h)));
           Ndarray1 (data (bin mul (val_sz p nu R (Ar zs) Z r Z2)
                                   (val_aux Cm nu E R h)))]).
Proof using Hc Hd.
  intros Hg.
  unfold Geertsma_disk_stress.
  rewrite <- (app_nil_r s) at 1.
  do 38 run_step.
  erewrite bind_ok by (apply G_ok; exact Hg). cbv beta iota zeta.
  do 3 run_step.
  reflexivity.
Qed.

Lemma stress_run_zero_division :
  eqb (mul (lit 2) (add (lit 1) nu)) (lit 0) = true ->
  fst (Geertsma_disk_stress Cm (VRef c) (VRef d)
         (VFloat p) (VFloat nu) (VFloat E) s)
  = inl ZeroDivisionError.
Proof using Hc Hd.
  intros Hg.
  unfold Geertsma_disk_stress.
  rewrite <- (app_nil_r s) at 1.
  do 38 run_step.
  erewrite bind_raise by (apply G_raises; exact Hg).
  reflexivity.
Qed.
End Runs.

(* ================================================================== *)
(** * The values at one point *)

Create Rewrite HintDb kernels_pt.
#[global] Hint Rewrite @pt_bin @pt_un @pt_power @pt_Sc
  @pt_Int1 @pt_Int2 @pt_Int3 @pt_Int4 @pt_Int6 : kernels_pt.

(** Reduces the operators on one-point arrays, the kernels apart. *)
Ltac point_cbn :=
  cbn [bin un power np_abs np_sign np_sqrt fmap list_fmap zip_with
       Z.eqb Pos.eqb].

Ltac point_eval Hy Hx Hz :=
  unfold val_ur, val_uz, val_sr, val_st, val_sz, val_scale, val_aux,
    val_Z2, val_r, val_Y, val_X, val_Z, np_sqrt, np_abs, np_sign;
  autorewrite with kernels_pt;
  rewrite ?(pt_Ar_Some _ _ _ Hy), ?(pt_Ar_Some _ _ _ Hx),
    ?(pt_Ar_Some _ _ _ Hz);
  point_cbn;
  rewrite ?Int1_point, ?Int2_point, ?Int3_point, ?Int4_point, ?Int6_point;
  point_cbn.

Section PointValues.
Context {F : Type} {NF : Numeric F} {SF : Special F}.
Variable Cm : F -> F -> F.
Variables (ys xs zs : list F) (y0 x0 D R h p nu E : F).
Variables (i : nat) (y x z : F).
Hypothesis Hy : ys !! i = Some y.
Hypothesis Hx : xs !! i = Some x.
Hypothesis Hz : zs !! i = Some z.

Let Y := val_Y ys y0.
Let X := val_X xs x0.
Let Z := val_Z zs D.
Let r := val_r Y X Z.
Let Z2 := val_Z2 Z D.

Lemma Y_at : data Y !! i = Some (point_Y y0 y).
Proof using Hy. apply pt_one. subst Y. now point_eval Hy Hx Hz. Qed.

Lemma X_at : data X !! i = Some (point_X x0 x).
Proof using Hx. apply pt_one. subst X. now point_eval Hy Hx Hz. Qed.

Lemma Z_at : data Z !! i = Some (point_Z D z).
Proof using Hz. apply pt_one. subst Z. now point_eval Hy Hx Hz. Qed.

Lemma r_at : data r !! i = Some (point_r y0 x0 D y x z).
Proof using Hy Hx Hz.
  apply pt_one. subst r Y X Z. now point_eval Hy Hx Hz.
Qed.

Lemma Z2_at : data Z2 !! i = Some (point_Z2 D z).
Proof using Hz. apply pt_one. subst Z2 Z. now point_eval Hy Hx Hz. Qed.

Lemma ur_at :
  data (bin mul (val_ur p nu R (Ar zs) Z r Z2) (val_scale Cm nu E R h)) !! i
  = Some (point_ur Cm y0 x0 D R h p nu E y x z).
Proof using Hy Hx Hz.
  apply pt_one. subst Z2 r Y X Z. now point_eval Hy Hx Hz.
Qed.

Lemma uz_at :
  data (bin mul (val_uz p nu R (Ar zs) Z r Z2) (val_scale Cm nu E R h)) !! i
  = Some (point_uz Cm y0 x0 D R h p nu E y x z).
Proof using Hy Hx Hz.
  apply pt_one. subst Z2 r Y X Z. now point_eval Hy Hx Hz.
Qed.

Lemma sr_at :
  data (bin mul (val_sr p nu R (Ar zs) Z r Z2) (val_aux Cm nu E R h)) !! i
  = Some (point_sr Cm y0 x0 D R h p nu E y x z).
Proof using Hy Hx Hz.
  apply pt_one. subst Z2 r Y X Z. now point_eval Hy Hx Hz.
Qed.

Lemma st_at :
  data (bin mul (val_st p nu R (Ar zs) Z r Z2) (val_aux Cm nu E R h)) !! i
  = Some (point_st Cm y0 x0 D R h p nu E y x z).
Proof using Hy Hx Hz.
  apply pt_one. subst Z2 r Y X Z. now point_eval Hy Hx Hz.
Qed.

Lemma sz_at :
  data (bin mul (val_sz p nu R (Ar zs) Z r Z2) (val_aux Cm nu E R h)) !! i
  = Some (point_sz Cm y0 x0 D R h p nu E y x z).
Proof using Hy Hx Hz.
  apply pt_one. subst Z2 r Y X Z. now point_eval Hy Hx Hz.
Qed.
End PointValues.

(* ================================================================== *)
(** * The store of the caller is left as it was *)

Section Frame.
Context {F : Type} {NF : Numeric F} {SF : Special F}.
Variable s0 : store F.

Lemma keeps_bind {A B} (c : M F A) (k : A -> M F B) Q Q' :
  keeps s0 c Q -> (forall a, Q a -> keeps s0 (k a) Q') ->
  keeps s0 (bind c k) Q'.
Proof.
  intros Hc Hk s Hs. unfold bind.
  destruct (Hc s Hs) as [Hs' Ha].
  destruct (c s) as [[e|a] s']; simpl in *; [now split|].
  apply (Hk a (Ha a eq_refl) s' Hs').
Qed.

(** A computation that returns the store it was given. *)
Lemma keeps_reader {A} (c : M F A) :
  (forall s, snd (c s) = s) -> keeps s0 c (fun _ => True).
Proof. intros Hc s Hs. rewrite Hc. now split. Qed.

Lemma keeps_ret {A} (a : A) (Q : A -> Prop) : Q a -> keeps s0 (ret a) Q.
Proof. intros HQ s Hs. split; [exact Hs|]. simpl. now intros ? [= <-]. Qed.

Lemma keeps_assert b msg : keeps s0 (assert_ b msg) (fun _ => True).
Proof. apply keeps_reader. now destruct b. Qed.

Lemma keeps_len v : keeps s0 (len v) (fun _ => True).
Proof.
  apply keeps_reader. intros s. unfold len.
  now destruct (deref v s) as [[]|].
Qed.

Lemma keeps_shape0 v : keeps s0 (shape0 v) (fun _ => True).
Proof.
  apply keeps_reader. intros s. unfold shape0.
  now destruct (deref v s) as [[]|].
Qed.

Lemma keeps_unpack5 v : keeps s0 (unpack5 v) (fun _ => True).
Proof.
  apply keeps_reader. intros s. unfold unpack5.
  destruct (deref v s) as [[l|l|l]|]; [| | |reflexivity];
    now do 6 (try destruct l as [|? l]).
Qed.

Lemma keeps_getitem v i : keeps s0 (getitem v i) (fun _ => True).
Proof.
  apply keeps_reader. intros s. unfold getitem.
  destruct (deref v s) as [[l|l|l]|]; [| | |reflexivity];
    now destruct (l !! i).
Qed.

Lemma keeps_read v : keeps s0 (read v) (fun _ => True).
Proof.
  apply keeps_reader. intros s. unfold read.
  destruct v as [x|l]; [reflexivity|].
  now destruct (s !! l) as [[]|].
Qed.

Lemma keeps_G nu E : keeps s0 (G nu E) (fun _ => True).
Proof.
  apply keeps_reader. intros s. unfold G.
  destruct E; simpl; [|now destruct nu].
  destruct nu; simpl; [|reflexivity].
  now destruct (eqb _ _).
Qed.

Lemma extends_length s : extends s0 s -> length s0 <= length s.
Proof.
  unfold extends. intros E.
  rewrite <- E at 1. rewrite length_take. lia.
Qed.

(** Allocation adds an object after those of [s0]. *)
Lemma extends_alloc s o : extends s0 s -> extends s0 (s ++ [o]).
Proof.
  intros E. unfold extends.
  rewrite take_app_le by now apply extends_length. exact E.
Qed.

(** An update of a fresh object leaves those of [s0]. *)
Lemma extends_update s l o :
  extends s0 s -> length s0 <= l -> extends s0 (<[l := o]> s).
Proof.
  intros E Hl. unfold extends. now rewrite take_insert_ge.
Qed.

Lemma keeps_new a : keeps s0 (new a) (fresh s0).
Proof.
  intros s Hs. destruct a as [x|l]; simpl.
  - split; [exact Hs|]. now intros ? [= <-].
  - split; [now apply extends_alloc|].
    intros ? [= <-]. now apply extends_length.
Qed.

(** The in-place product is the one update of the store: it is safe on
    a fresh value. *)
Lemma keeps_imul v c : fresh s0 v -> keeps s0 (imul v c) (fresh s0).
Proof.
  intros Hv s Hs. unfold imul. destruct v as [x|l].
  - destruct (bin mul (Sc x) c); simpl.
    + split; [exact Hs|]. now intros ? [= <-].
    + split; [now apply extends_alloc|].
      intros ? [= <-]. now apply extends_length.
  - destruct (s !! l) as [[rows|dat|items]|]; simpl; try now split.
    destruct c; simpl;
      (split; [now apply extends_update|]; now intros ? [= <-]).
Qed.
End Frame.

(** One statement of a call, in the logic above. *)
Ltac keeps_step :=
  first
    [ apply keeps_ret
    | eapply keeps_bind;
      [ first [ apply keeps_len | apply keeps_shape0 | apply keeps_assert
              | apply keeps_unpack5 | apply keeps_getitem | apply keeps_read
              | apply keeps_G | apply keeps_new
              | apply keeps_imul; assumption ]
      | intros ? ? ] ].

Section FrameCalls.
Context {F : Type} {NF : Numeric F} {SF : Special F}.
Variable Cm : F -> F -> F.

(** The displacement function keeps the store of its caller, and what
    it returns is fresh. *)
Lemma displacement_keeps s0 coordinates disk pressure poisson young :
  keeps s0 (Geertsma_disk_displacement Cm coordinates disk
              pressure poisson young)
    (fun out => fresh s0 (fst out) /\ fresh s0 (snd out)).
Proof.
  unfold Geertsma_disk_displacement.
  do 11 keeps_step.
  match goal with a : (_ * _ * _ * _ * _)%type |- _ =>
    destruct a as [[[[y0 x0] D] R] h] end.
  repeat keeps_step. simpl. now split.
Qed.

(** So does the stress function. *)
Lemma stress_keeps s0 coordinates disk pressure poisson young :
  keeps s0 (Geertsma_disk_stress Cm coordinates disk
              pressure poisson young)
    (fun out => fresh s0 (fst (fst out)) /\ fresh s0 (snd (fst out))
                /\ fresh s0 (snd out)).
Proof.
  unfold Geertsma_disk_stress.
  do 11 keeps_step.
  match goal with a : (_ * _ * _ * _ * _)%type |- _ =>
    destruct a as [[[[y0 x0] D] R] h] end.
  repeat keeps_step. simpl. now repeat split.
Qed.

Lemma extends_refl (s : store F) : extends s s.
Proof. unfold extends. apply firstn_all. Qed.
End FrameCalls.

(* ================================================================== *)
(** * What a call returns *)

Section Results.
Context {F : Type} {NF : Numeric F} {SF : Special F}.
Variable Cm : F -> F -> F.
Variables (s : store F) (c d : loc).
Variables (ys xs zs : list F) (y0 x0 D R h p nu E : F).
Hypothesis Hc : s !! c = Some (Ndarray2 [ys; xs; zs]).
Hypothesis Hd : s !! d = Some (PyList [y0; x0; D; R; h]).

Let Z := val_Z zs D.
Let r := val_r (val_Y ys y0) (val_X xs x0) Z.
Let Z2 := val_Z2 Z D.

Lemma displacement_returns :
  returns2
    (Geertsma_disk_displacement Cm (VRef c) (VRef d)
       (VFloat p) (VFloat nu) (VFloat E) s)
    (data (bin mul (val_ur p nu R (Ar zs) Z r Z2) (val_scale Cm nu E R h)))
    (data (bin mul (val_uz p nu R (Ar zs) Z r Z2) (val_scale Cm nu E R h))).
Proof using Hc Hd.
  eexists _, _, _.
  split; [exact (displacement_run Cm _ _ _ _ _ _ _ _ _ _ _ p nu E Hc Hd)|].
  now rewrite !lookup_new.
Qed.

Lemma stress_returns :
  eqb (mul (lit 2) (add (lit 1) nu)) (lit 0) = false ->
  returns3
    (Geertsma_disk_stress Cm (VRef c) (VRef d)
       (VFloat p) (VFloat nu) (VFloat E) s)
    (data (bin mul (val_sr p nu R (Ar zs) Z r Z2) (val_aux Cm nu E R h)))
    (data (bin mul (val_st p nu R (Ar zs) Z r Z2) (val_aux Cm nu E R h)))
    (data (bin mul (val_sz p nu R (Ar zs) Z r Z2) (val_aux Cm nu E R h))).
Proof using Hc Hd.
  intros Hg.
  eexists _, _, _, _.
  split; [exact (stress_run Cm _ _ _ _ _ _ _ _ _ _ _ p nu E Hc Hd Hg)|].
  now rewrite !lookup_new.
Qed.
End Results.

(* ================================================================== *)
(** * Exact arithmetic *)

Section ExactFacts.
Local Open Scope R_scope.

Lemma Rltb_true x y : x < y -> Rltb x y = true.
Proof. intros. unfold Rltb. now destruct (Rlt_dec x y). Qed.

Lemma Rltb_false x y : ~ x < y -> Rltb x y = false.
Proof. intros. unfold Rltb. now destruct (Rlt_dec x y). Qed.

Lemma Reqb_true x y : x = y -> Reqb x y = true.
Proof. intros. unfold Reqb. now destruct (Req_dec_T x y). Qed.

Lemma Reqb_false x y : x <> y -> Reqb x y = false.
Proof. intros. unfold Reqb. now destruct (Req_dec_T x y). Qed.

Lemma sign_pos (x : R) : 0 < x -> sign x = 1.
Proof. intros. unfold sign. simpl. now rewrite Rltb_true. Qed.

Lemma sign_neg (x : R) : x < 0 -> sign x = -1.
Proof.
  intros. unfold sign. simpl.
  rewrite Rltb_false by lra. now rewrite Rltb_true.
Qed.

Lemma sign_zero : sign 0 = 0.
Proof.
  unfold sign. simpl. rewrite !Rltb_false by lra.
  now rewrite Reqb_true.
Qed.

Lemma heaviside_zero (h0 : R) : heaviside 0 h0 = h0.
Proof. unfold heaviside. simpl. now rewrite !Reqb_true. Qed.

Lemma heaviside_pos (x h0 : R) : 0 < x -> heaviside x h0 = 1.
Proof.
  intros. unfold heaviside. simpl. rewrite Reqb_true by reflexivity.
  simpl. rewrite Reqb_false by lra. now rewrite Rltb_false by lra.
Qed.

Lemma heaviside_neg (x h0 : R) : x < 0 -> heaviside x h0 = 0.
Proof.
  intros. unfold heaviside. simpl. rewrite Reqb_true by reflexivity.
  simpl. rewrite Reqb_false by lra. now rewrite Rltb_true.
Qed.
End ExactFacts.

(** The claims about the formulas, in exact arithmetic: for every
    library of elliptic integrals [K], [Ek], [Finc], [Einc] and every
    compaction coefficient [Cm]. *)
Section Exact.
Variables (K Ek : R -> R) (Finc Einc : R -> R -> R).
Variable Cm : R -> R -> R.
Local Existing Instance R_numeric.
Let RS : Special R := R_special K Ek Finc Einc.
Local Existing Instance RS.
Local Open Scope R_scope.

Lemma point_r_exact y0 x0 D y x z :
  point_r y0 x0 D y x z
  = R_sqrt.sqrt ((y - y0) ^ 2 + (x - x0) ^ 2 + (z - D) ^ 2).
Proof.
  unfold point_r, point_Y, point_X, point_Z. simpl. f_equal. ring.
Qed.

(** C1. For a coordinate matrix of three rows, a disk of five values and
    scalar pressure, poisson and young, the vertical displacement at each
    point is [pressure * (sign(Z)*I3(|Z|,r,R) - (3-4*poisson)*I3(Z2,r,R)
    - 2*z*I4(Z2,r,R)) * Cm*R*h/2], with [Z = z - D] and [z] the original
    coordinate; [sign] is -1, 0 or 1, and 0 only at [Z = 0]. *)
Theorem C1_vertical_displacement s c d ys xs zs y0 x0 D R h p nu E i y x z :
  s !! c = Some (Ndarray2 [ys; xs; zs]) ->
  s !! d = Some (PyList [y0; x0; D; R; h]) ->
  ys !! i = Some y -> xs !! i = Some x -> zs !! i = Some z ->
  let Z := z - D in
  let r := R_sqrt.sqrt ((y - y0) ^ 2 + (x - x0) ^ 2 + Z ^ 2) in
  let Z2 := Z + 2 * D in
  exists ur uz,
    returns2 (Geertsma_disk_displacement Cm (VRef c) (VRef d)
                (VFloat p) (VFloat nu) (VFloat E) s) ur uz
    /\ uz !! i = Some (p * (sign Z * I3 (Rabs Z) r R
                            - (3 - 4 * nu) * I3 Z2 r R
                            - 2 * z * I4 Z2 r R)
                       * Cm nu E * R * h / 2)
    /\ (sign Z = -1 \/ sign Z = 0 \/ sign Z = 1)
    /\ (sign Z = 0 <-> Z = 0).
Proof.
  intros Hc Hd Hy Hx Hz Z r Z2.
  eexists _, _.
  split; [exact (displacement_returns Cm _ _ _ _ _ _ _ _ _ _ _ p nu E Hc Hd)|].
  split.
  - erewrite uz_at by eassumption. f_equal.
    unfold point_uz. rewrite point_r_exact. fold Z r.
    unfold point_Z2, point_Z. simpl. fold Z. fold Z2.
    unfold Rdiv. ring.
  - destruct (Rtotal_order Z 0) as [Hlt|[Heq|Hgt]].
    + rewrite sign_neg by exact Hlt. split; [auto|]. split; lra.
    + rewrite Heq, sign_zero. split; [auto|]. split; lra.
    + rewrite sign_pos by exact Hgt. split; [auto|]. split; lra.
Qed.

(** C4. The radial displacement at each point is
    [-pressure * (I1(|Z|,r,R) + (3-4*poisson)*I1(Z2,r,R) - 2*z*I2(Z2,r,R))
    * Cm*R*h/2], with [z] the original vertical coordinate. *)
Theorem C4_radial_displacement s c d ys xs zs y0 x0 D R h p nu E i y x z :
  s !! c = Some (Ndarray2 [ys; xs; zs]) ->
  s !! d = Some (PyList [y0; x0; D; R; h]) ->
  ys !! i = Some y -> xs !! i = Some x -> zs !! i = Some z ->
  let Z := z - D in
  let r := R_sqrt.sqrt ((y - y0) ^ 2 + (x - x0) ^ 2 + Z ^ 2) in
  let Z2 := Z + 2 * D in
  exists ur uz,
    returns2 (Geertsma_disk_displacement Cm (VRef c) (VRef d)
                (VFloat p) (VFloat nu) (VFloat E) s) ur uz
    /\ ur !! i = Some (- p * (I1 (Rabs Z) r R
                              + (3 - 4 * nu) * I1 Z2 r R
                              - 2 * z * I2 Z2 r R)
                       * Cm nu E * R * h / 2).
Proof.
  intros Hc Hd Hy Hx Hz Z r Z2.
  eexists _, _.
  split; [exact (displacement_returns Cm _ _ _ _ _ _ _ _ _ _ _ p nu E Hc Hd)|].
  erewrite ur_at by eassumption. f_equal.
  unfold point_ur. rewrite point_r_exact. fold Z r.
  unfold point_Z2, point_Z. simpl. fold Z. fold Z2.
  unfold Rdiv. ring.
Qed.

(** C9. Each stress component is its combination of the kernels I1, I2,
    I4, I6 times the common factor [aux = G*Cm*R*h], where
    [G = young/(2*(1+poisson))]. *)
Theorem C9_stress_common_factor s c d ys xs zs y0 x0 D R h p nu E i y x z :
  s !! c = Some (Ndarray2 [ys; xs; zs]) ->
  s !! d = Some (PyList [y0; x0; D; R; h]) ->
  ys !! i = Some y -> xs !! i = Some x -> zs !! i = Some z ->
  2 * (1 + nu) <> 0 ->
  let Z := z - D in
  let r := R_sqrt.sqrt ((y - y0) ^ 2 + (x - x0) ^ 2 + Z ^ 2) in
  let Z2 := Z + 2 * D in
  let aux := E / (2 * (1 + nu)) * Cm nu E * R * h in
  exists sr st sz,
    returns3 (Geertsma_disk_stress Cm (VRef c) (VRef d)
                (VFloat p) (VFloat nu) (VFloat E) s) sr st sz
    /\ sr !! i = Some (p * (I4 (Rabs Z) r R
                            + 3 * I4 Z2 r R
                            - 2 * z * I6 Z2 r R
                            - I1 (Rabs Z) r R / r
                            + (3 - 4 * nu) * I1 Z2 r R / r
                            - 2 * z * I2 Z2 r R / r) * aux)
    /\ st !! i = Some (p * (4 * nu * I4 Z2 r R
                            + I1 (Rabs Z) r R / r
                            + (3 - 4 * nu) * I1 Z2 r R / r
                            - 2 * z * I2 Z2 r R / r) * aux)
    /\ sz !! i = Some (- p * (- I4 (Rabs Z) r R
                              + I4 Z2 r R
                              + 2 * z * I6 Z2 r R) * aux).
Proof.
  intros Hc Hd Hy Hx Hz Hg Z r Z2 aux.
  eexists _, _, _. split.
  { apply (stress_returns Cm _ _ _ _ _ _ _ _ _ _ _ p nu E Hc Hd).
    simpl. now apply Reqb_false. }
  erewrite sr_at, st_at, sz_at by eassumption.
  unfold point_sr, point_st, point_sz, point_aux.
  rewrite !point_r_exact. fold Z r.
  unfold point_Z2, point_Z. simpl. fold Z. fold Z2.
  repeat split; reflexivity.
Qed.

Lemma m_at_exact q r R :
  m_at q r R = 4 * R * r / (q ^ 2 + (r + R) ^ 2).
Proof. unfold m_at. simpl. f_equal. ring. Qed.


(** C6, in exact arithmetic. For [R > 0], [r >= 0], [q >= 0] the
    parameter [m = 4*R*r/(q^2 + (r+R)^2)] of every kernel satisfies
    [0 <= m < 1] unless [q = 0] and [r = R], and [m = 1] exactly when
    [q = 0] and [r = R]. *)
Theorem C6_modulus_bound_exact q r R :
  0 < R -> 0 <= r -> 0 <= q ->
  m_at q r R = 4 * R * r / (q ^ 2 + (r + R) ^ 2)
  /\ (~ (q = 0 /\ r = R) -> 0 <= m_at q r R < 1)
  /\ (m_at q r R = 1 <-> q = 0 /\ r = R).
Proof.
  intros HR Hr Hq. rewrite m_at_exact. split; [reflexivity|].
  set (d := q ^ 2 + (r + R) ^ 2).
  set (e := q ^ 2 + (r - R) ^ 2).
  assert (Hd : 0 < d).
  { unfold d. pose proof (pow2_ge_0 q).
    assert (0 < (r + R) ^ 2) by (apply pow_lt; lra). lra. }
  assert (He : 0 <= e).
  { unfold e. pose proof (pow2_ge_0 q). pose proof (pow2_ge_0 (r - R)).
    lra. }
  assert (Hm : 4 * R * r / d = 1 - e / d).
  { unfold e. fold d. field_simplify_eq; [unfold d; ring | lra]. }
  assert (Hz : e = 0 <-> q = 0 /\ r = R).
  { unfold e. split; [intros E0 | intros [-> ->]; ring].
    pose proof (pow2_ge_0 q). pose proof (pow2_ge_0 (r - R)).
    split; [|apply Rminus_diag_uniq];
      apply Rsqr_0_uniq; rewrite Rsqr_pow2; lra. }
  rewrite Hm. split.
  - intros Hne.
    assert (0 < e).
    { destruct He as [Hlt|Heq]; [exact Hlt|].
      symmetry in Heq. apply Hz in Heq. contradiction. }
    assert (0 < e / d) by now apply Rdiv_lt_0_compat.
    assert (e / d <= 1).
    { apply (Rmult_le_reg_r d); [exact Hd|].
      unfold Rdiv. rewrite Rmult_assoc, Rinv_l by lra.
      unfold e, d. nra. }
    lra.
  - rewrite <- Hz. split; intros Heq.
    + assert (Hed : e / d = 0) by lra.
      apply (f_equal (fun t => t * d)) in Hed.
      unfold Rdiv in Hed. rewrite Rmult_assoc, Rinv_l in Hed by lra. lra.
    + rewrite Heq. unfold Rdiv. ring.
Qed.


End Exact.

(* ================================================================== *)
(** * Every arithmetic *)

Section Geometry.
Context {F : Type} {NF : Numeric F} {SF : Special F}.
Variable Cm : F -> F -> F.

Variables (s : store F) (c d : loc).
Variables (ys xs zs : list F) (y0 x0 D R h p nu E : F).
Hypothesis Hc : s !! c = Some (Ndarray2 [ys; xs; zs]).
Hypothesis Hd : s !! d = Some (PyList [y0; x0; D; R; h]).

Let Y := val_Y ys y0.
Let X := val_X xs x0.
Let Z := val_Z zs D.
Let r := val_r Y X Z.
Let Z2 := val_Z2 Z D.

(** The store after a call of the stress function, whether the shear
    modulus is computed or not. *)
Lemma stress_store :
  exists t,
    snd (Geertsma_disk_stress Cm (VRef c) (VRef d)
           (VFloat p) (VFloat nu) (VFloat E) s)
    = s ++ [Ndarray1 (data Y); Ndarray1 (data X); Ndarray1 (data Z);
            Ndarray1 (data r); Ndarray1 (data Z2)] ++ t.
Proof using Hc Hd.
  destruct (eqb (mul (lit 2) (add (lit 1) nu)) (lit 0)) eqn:Hg.
  - eexists. unfold Geertsma_disk_stress.
    rewrite <- (app_nil_r s) at 1.
    do 38 run_step.
    erewrite bind_raise by (apply G_raises; exact Hg).
    reflexivity.
  - rewrite (stress_run Cm _ _ _ _ _ _ _ _ _ _ _ p nu E Hc Hd Hg).
    eexists. reflexivity.
Qed.
End Geometry.

(** C3. In both public functions the geometry of each point is
    [Y = y - y0], [X = x - x0], [Z = z - D], the radius is the
    three-dimensional [r = sqrt(Y^2 + X^2 + Z^2)], and the mirror depth
    is [Z2 = Z + 2*D]. *)
Theorem C3_point_geometry {F : Type} {NF : Numeric F} {SF : Special F}
    (Cm : F -> F -> F) (s : store F) c d ys xs zs
    (y0 x0 D R h p nu E : F) i (y x z : F) :
  s !! c = Some (Ndarray2 [ys; xs; zs]) ->
  s !! d = Some (PyList [y0; x0; D; R; h]) ->
  ys !! i = Some y -> xs !! i = Some x -> zs !! i = Some z ->
  let Y := (y - y0)%num in
  let X := (x - x0)%num in
  let Z := (z - D)%num in
  let r := sqrt (Y * Y + X * X + Z * Z)%num in
  let Z2 := (Z + #2 * D)%num in
  geometry_at
    (snd (Geertsma_disk_displacement Cm (VRef c) (VRef d)
            (VFloat p) (VFloat nu) (VFloat E) s))
    (length s) i Y X Z r Z2
  /\ geometry_at
       (snd (Geertsma_disk_stress Cm (VRef c) (VRef d)
               (VFloat p) (VFloat nu) (VFloat E) s))
       (length s) i Y X Z r Z2.
Proof.
  intros Hc Hd Hy Hx Hz Y X Z r Z2.
  assert (Hgeo : forall t,
    geometry_at
      (s ++ [Ndarray1 (data (val_Y ys y0)); Ndarray1 (data (val_X xs x0));
             Ndarray1 (data (val_Z zs D));
             Ndarray1 (data (val_r (val_Y ys y0) (val_X xs x0) (val_Z zs D)));
             Ndarray1 (data (val_Z2 (val_Z zs D) D))] ++ t)
      (length s) i Y X Z r Z2).
  { intros t. unfold geometry_at. eexists _, _, _, _, _.
    rewrite <- (Nat.add_0_r (length s)) at 1.
    do 5 rewrite lookup_new. cbn [lookup list_lookup app].
    do 5 (split; [reflexivity|]).
    split; [now apply Y_at|].
    split; [now apply X_at|].
    split; [now apply Z_at|].
    split; [now apply r_at|].
    now apply Z2_at. }
  split.
  - rewrite (displacement_run Cm _ _ _ _ _ _ _ _ _ _ _ p nu E Hc Hd).
    apply (Hgeo [_; _]).
  - destruct (stress_store Cm _ _ _ _ _ _ _ _ _ _ _ p nu E Hc Hd) as [t ->].
    apply Hgeo.
Qed.

(** C10. A call of either public function leaves every object of the
    caller's store as it was, the coordinates and the disk among them
    (the store at the call is a prefix of the store after it), and the
    arrays it returns are new objects. *)
Theorem C10_inputs_not_mutated {F : Type} {NF : Numeric F} {SF : Special F}
    (Cm : F -> F -> F) (s : store F)
    (coordinates disk pressure poisson young : pyvalue F) :
  let disp :=
    Geertsma_disk_displacement Cm coordinates disk pressure poisson young s in
  let stress :=
    Geertsma_disk_stress Cm coordinates disk pressure poisson young s in
  take (length s) (snd disp) = s
  /\ take (length s) (snd stress) = s
  /\ (forall ur uz, fst disp = inr (ur, uz) -> fresh s ur /\ fresh s uz)
  /\ (forall sr st sz,
        fst stress = inr (sr, st, sz) ->
        fresh s sr /\ fresh s st /\ fresh s sz).
Proof.
  intros disp stress.
  destruct (displacement_keeps Cm s coordinates disk pressure poisson young
              s (extends_refl s)) as [Hd Hdr].
  destruct (stress_keeps Cm s coordinates disk pressure poisson young
              s (extends_refl s)) as [Hs Hsr].
  split; [exact Hd|]. split; [exact Hs|]. split.
  - intros ur uz Hr. exact (Hdr (ur, uz) Hr).
  - intros sr st sz Hr. exact (Hsr (sr, st, sz) Hr).
Qed.

(* ================================================================== *)
(** * Validation *)

Section Validation.
Context {F : Type} {NF : Numeric F} {SF : Special F}.
Variable Cm : F -> F -> F.

Lemma violated_first_failure (rows : list (list F)) (items : list F)
  (pressure poisson young : pyvalue F) :
  violated rows items pressure poisson young
  <-> exists msg, first_failure rows items pressure poisson young = Some msg.
Proof.
  unfold violated, first_failure.
  destruct (Nat.eqb_spec (length items) 5); simpl; [|split; eauto].
  destruct (Nat.eqb_spec (length rows) 3); simpl; [|split; eauto].
  destruct (isscalar pressure); simpl; [|split; eauto].
  destruct (isscalar poisson); simpl; [|split; eauto].
  destruct (isscalar young); simpl; [|split; eauto].
  split; [intuition congruence|]. now intros [msg Hm].
Qed.

Lemma valid_inputs (rows : list (list F)) (items : list F)
  (pressure poisson young : pyvalue F) :
  first_failure rows items pressure poisson young = None ->
  exists ys xs zs y0 x0 D R h p nu E,
    rows = [ys; xs; zs] /\ items = [y0; x0; D; R; h]
    /\ pressure = VFloat p /\ poisson = VFloat nu /\ young = VFloat E.
Proof.
  unfold first_failure.
  destruct (Nat.eqb_spec (length items) 5) as [E5|]; simpl; [|discriminate].
  destruct (Nat.eqb_spec (length rows) 3) as [E3|]; simpl; [|discriminate].
  destruct pressure as [p|]; simpl; [|discriminate].
  destruct poisson as [nu|]; simpl; [|discriminate].
  destruct young as [E|]; simpl; [|discriminate].
  intros _.
  do 6 (destruct items as [|? items]; try discriminate).
  do 4 (destruct rows as [|? rows]; try discriminate).
  eexists _, _, _, _, _, _, _, _, _, _, _. repeat split; reflexivity.
Qed.

Variables (s : store F) (c d : loc).
Variables (rows : list (list F)) (items : list F).
Variables (pressure poisson young : pyvalue F).
Hypothesis Hc : s !! c = Some (Ndarray2 rows).
Hypothesis Hd : s !! d = Some (PyList items).

Ltac reject :=
  erewrite bind_raise by reflexivity; rewrite app_nil_r; congruence.

Lemma displacement_rejects msg :
  first_failure rows items pressure poisson young = Some msg ->
  Geertsma_disk_displacement Cm (VRef c) (VRef d) pressure poisson young s
  = (inl (AssertionError msg), s).
Proof using Hc Hd.
  unfold first_failure, Geertsma_disk_displacement.
  rewrite <- (app_nil_r s) at 1. run_step.
  destruct (length items =? 5); cbn [negb isscalar];
    [run_step|intros [= <-]; reject].
  run_step.
  destruct (length rows =? 3); cbn [negb isscalar];
    [run_step|intros [= <-]; reject].
  destruct pressure; cbn [negb isscalar]; [run_step|intros [= <-]; reject].
  destruct poisson; cbn [negb isscalar]; [run_step|intros [= <-]; reject].
  destruct young; cbn [negb isscalar]; [discriminate|intros [= <-]; reject].
Qed.

Lemma stress_rejects msg :
  first_failure rows items pressure poisson young = Some msg ->
  Geertsma_disk_stress Cm (VRef c) (VRef d) pressure poisson young s
  = (inl (AssertionError msg), s).
Proof using Hc Hd.
  unfold first_failure, Geertsma_disk_stress.
  rewrite <- (app_nil_r s) at 1. run_step.
  destruct (length items =? 5); cbn [negb isscalar];
    [run_step|intros [= <-]; reject].
  run_step.
  destruct (length rows =? 3); cbn [negb isscalar];
    [run_step|intros [= <-]; reject].
  destruct pressure; cbn [negb isscalar]; [run_step|intros [= <-]; reject].
  destruct poisson; cbn [negb isscalar]; [run_step|intros [= <-]; reject].
  destruct young; cbn [negb isscalar]; [discriminate|intros [= <-]; reject].
Qed.
End Validation.

(** C5. Both public functions raise the validation error, before they
    compute anything, exactly when a precondition is violated: the disk
    has not five values, the coordinates have not three rows, or one of
    pressure, poisson, young is not a scalar. *)
Theorem C5_validation_errors {F : Type} {NF : Numeric F} {SF : Special F}
    (Cm : F -> F -> F) (s : store F) c d rows items
    (pressure poisson young : pyvalue F) :
  s !! c = Some (Ndarray2 rows) ->
  s !! d = Some (PyList items) ->
  let disp :=
    Geertsma_disk_displacement Cm (VRef c) (VRef d) pressure poisson young in
  let stress :=
    Geertsma_disk_stress Cm (VRef c) (VRef d) pressure poisson young in
  let bad := violated rows items pressure poisson young in
  (bad <-> exists msg, fst (disp s) = inl (AssertionError msg))
  /\ (bad <-> exists msg, fst (stress s) = inl (AssertionError msg))
  /\ (bad -> snd (disp s) = s /\ snd (stress s) = s).
Proof.
  intros Hc Hd disp stress bad. subst disp stress bad.
  rewrite violated_first_failure.
  destruct (first_failure rows items pressure poisson young) as [msg|] eqn:Hf.
  - rewrite (displacement_rejects Cm _ _ _ _ _ _ _ _ Hc Hd _ Hf).
    rewrite (stress_rejects Cm _ _ _ _ _ _ _ _ Hc Hd _ Hf).
    simpl. repeat split; eauto.
  - destruct (valid_inputs _ _ _ _ _ Hf)
      as (ys & xs & zs & y0 & x0 & D & R & h & p & nu & E
          & -> & -> & -> & -> & ->).
    rewrite (displacement_run Cm _ _ _ _ _ _ _ _ _ _ _ p nu E Hc Hd).
    split; [|split].
    + split; intros [msg Hm]; discriminate.
    + split; [intros [msg Hm]; discriminate|].
      intros [msg Hm].
      destruct (eqb (mul (lit 2) (add (lit 1) nu)) (lit 0)) eqn:Hg.
      * rewrite (stress_run_zero_division Cm _ _ _ _ _ _ _ _ _ _ _ p nu E
                   Hc Hd Hg) in Hm.
        discriminate.
      * rewrite (stress_run Cm _ _ _ _ _ _ _ _ _ _ _ p nu E Hc Hd Hg) in Hm.
        discriminate.
    + intros [msg Hm]. discriminate.
Qed.


(* ================================================================== *)
(** * Oddness in the pressure *)

(** The law holds in exact arithmetic. *)
Lemma R_neg_laws : NegLaws R.
Proof. split; intros; simpl; ring. Qed.
#[export] Existing Instance R_neg_laws.

(** It holds in binary64: rounding does not depend on the sign. *)
Lemma binary_round_aux_opp prec emax sx mx ex lx :
  SpecFloat.binary_round_aux prec emax (negb sx) mx ex lx
  = SpecFloat.SFopp (SpecFloat.binary_round_aux prec emax sx mx ex lx).
Proof.
  unfold SpecFloat.binary_round_aux.
  destruct (SpecFloat.shr_fexp prec emax mx ex lx) as [mrs' e'].
  destruct (SpecFloat.shr_fexp prec emax _ e' SpecFloat.loc_Exact)
    as [mrs'' e''].
  destruct (SpecFloat.shr_m mrs''); simpl; try reflexivity.
  now destruct (_ <=? _)%Z.
Qed.

Lemma SFmul_opp_l prec emax x y :
  SpecFloat.SFmul prec emax (SpecFloat.SFopp x) y
  = SpecFloat.SFopp (SpecFloat.SFmul prec emax x y).
Proof.
  destruct x as [sx|sx| |sx mx ex], y as [sy|sy| |sy my ey]; simpl;
    try reflexivity;
    try (now destruct sx, sy).
  rewrite <- binary_round_aux_opp. now destruct sx, sy.
Qed.

Lemma float_neg_laws : NegLaws float.
Proof.
  split; intros; simpl; apply Prim2SF_inj.
  rewrite FloatAxioms.mul_spec, !FloatAxioms.opp_spec, FloatAxioms.mul_spec.
  apply SFmul_opp_l.
Qed.
#[export] Existing Instance float_neg_laws.

Section Odd.
Context {F : Type} {NF : Numeric F} {SF : Special F} {NL : NegLaws F}.
Variable Cm : F -> F -> F.



Lemma un_neg_Sc (x : F) : un neg (Sc x) = Sc (neg x).
Proof. reflexivity. Qed.

Variables (p nu R : F) (z Z r Z2 k : nd F).





End Odd.


(* ================================================================== *)
(** * The parameter [m] in machine arithmetic *)

(** C6, as stated, fails in binary64.  The point [(y, x, z) =
    (1, 0, 1 + 2^-30)] and the disk [(0, 0, 1, 1, h)] give the kernels
    [q = |Z| = 2^-30] and [r = 1] with [R = 1]: all the hypotheses hold,
    [q] is not zero, and the computed [m] is exactly 1, because
    [q**2 + (r+R)**2 = 2^-60 + 4] rounds to 4.  With [q = 0] and
    [r = 1 + 2^-52] (one unit in the last place off the rim) the
    computed [m] is [1 + 2^-52], above 1.  This holds whatever the
    library functions are. *)
Lemma C6_binary64_modulus_reaches_one :
  let q := 0x1p-30%float in
  let r := 1%float in
  let R := 1%float in
  PrimFloat.ltb 0 R = true
  /\ PrimFloat.leb 0 r = true
  /\ PrimFloat.leb 0 q = true
  /\ PrimFloat.eqb q 0 = false
  /\ (forall S : Special float,
        np_abs (val_Z [0x1.00000004p+0%float] 1%float) = Ar [q]
        /\ val_r (val_Y [1%float] 0%float) (val_X [0%float] 0%float)
             (val_Z [0x1.00000004p+0%float] 1%float) = Ar [r]
        /\ modulus (Ar [q]) (Ar [r]) (Sc R) = Ar [1%float]
        /\ m_at q r R = 1%float
        /\ PrimFloat.ltb (m_at q r R) 1 = false)
  /\ (forall S : Special float,
        PrimFloat.ltb 1 (m_at 0%float 0x1.0000000000001p+0%float R) = true).
Proof.
  cbv zeta. repeat split; reflexivity.
Qed.

(* ================================================================== *)
(** * Whole arrays *)

Section WholeArrays.
Context {F : Type} {NF : Numeric F} {SF : Special F}.
Variable Cm : F -> F -> F.

Lemma pt_Ar_None i (l : list F) : l !! i = None -> pt i (Ar l) = Ar [].
Proof. intros E. simpl. now rewrite E. Qed.

Lemma pt_none i (a : nd F) : pt i a = Ar [] -> data a !! i = None.
Proof.
  destruct a as [x|l]; simpl; [discriminate|].
  destruct (l !! i); simpl; congruence.
Qed.

Variables (ys xs zs : list F) (y0 x0 D R h p nu E : F).

Let Z := val_Z zs D.
Let r := val_r (val_Y ys y0) (val_X xs x0) Z.
Let Z2 := val_Z2 Z D.

(** Past the end of a row there is no value. *)
Ltac outside Hy Hx Hz :=
  apply pt_none; subst Z2 r Z;
  unfold val_ur, val_uz, val_sr, val_st, val_sz, val_scale, val_aux,
    val_Z2, val_r, val_Y, val_X, val_Z, np_sqrt, np_abs, np_sign;
  autorewrite with kernels_pt;
  rewrite ?(pt_Ar_Some _ _ _ Hy), ?(pt_Ar_Some _ _ _ Hx),
    ?(pt_Ar_Some _ _ _ Hz), ?(pt_Ar_None _ _ Hy), ?(pt_Ar_None _ _ Hx),
    ?(pt_Ar_None _ _ Hz);
  reflexivity.

Ltac whole lem :=
  apply list_eq; intros i; unfold points;
  rewrite list_lookup_fmap, !lookup_zip_with;
  destruct (ys !! i) as [y|] eqn:Hy, (xs !! i) as [x|] eqn:Hx,
    (zs !! i) as [z|] eqn:Hz;
  cbn [mbind option_bind fmap option_fmap option_map at_point];
  [ now apply lem | outside Hy Hx Hz .. ].

Lemma ur_all :
  data (bin mul (val_ur p nu R (Ar zs) Z r Z2) (val_scale Cm nu E R h))
  = at_point (point_ur Cm y0 x0 D R h p nu E) <$> points ys xs zs.
Proof. whole ur_at. Qed.

Lemma uz_all :
  data (bin mul (val_uz p nu R (Ar zs) Z r Z2) (val_scale Cm nu E R h))
  = at_point (point_uz Cm y0 x0 D R h p nu E) <$> points ys xs zs.
Proof. whole uz_at. Qed.

Lemma sr_all :
  data (bin mul (val_sr p nu R (Ar zs) Z r Z2) (val_aux Cm nu E R h))
  = at_point (point_sr Cm y0 x0 D R h p nu E) <$> points ys xs zs.
Proof. whole sr_at. Qed.

Lemma st_all :
  data (bin mul (val_st p nu R (Ar zs) Z r Z2) (val_aux Cm nu E R h))
  = at_point (point_st Cm y0 x0 D R h p nu E) <$> points ys xs zs.
Proof. whole st_at. Qed.

Lemma sz_all :
  data (bin mul (val_sz p nu R (Ar zs) Z r Z2) (val_aux Cm nu E R h))
  = at_point (point_sz Cm y0 x0 D R h p nu E) <$> points ys xs zs.
Proof. whole sz_at. Qed.

Variables (s : store F) (c d : loc).
Hypothesis Hc : s !! c = Some (Ndarray2 [ys; xs; zs]).
Hypothesis Hd : s !! d = Some (PyList [y0; x0; D; R; h]).

Lemma displacement_all :
  returns2 (Geertsma_disk_displacement Cm (VRef c) (VRef d)
              (VFloat p) (VFloat nu) (VFloat E) s)
    (at_point (point_ur Cm y0 x0 D R h p nu E) <$> points ys xs zs)
    (at_point (point_uz Cm y0 x0 D R h p nu E) <$> points ys xs zs).
Proof using Hc Hd.
  rewrite <- ur_all, <- uz_all.
  exact (displacement_returns Cm _ _ _ _ _ _ _ _ _ _ _ p nu E Hc Hd).
Qed.

Lemma stress_all :
  eqb (#2 * (#1 + nu))%num (#0)%num = false ->
  returns3 (Geertsma_disk_stress Cm (VRef c) (VRef d)
              (VFloat p) (VFloat nu) (VFloat E) s)
    (at_point (point_sr Cm y0 x0 D R h p nu E) <$> points ys xs zs)
    (at_point (point_st Cm y0 x0 D R h p nu E) <$> points ys xs zs)
    (at_point (point_sz Cm y0 x0 D R h p nu E) <$> points ys xs zs).
Proof using Hc Hd.
  intros Hg. rewrite <- sr_all, <- st_all, <- sz_all.
  exact (stress_returns Cm _ _ _ _ _ _ _ _ _ _ _ p nu E Hc Hd Hg).
Qed.
End WholeArrays.


Lemma zip_with_fmap_same {A B C D : Type} (g : B -> C -> D)
    (f1 : A -> B) (f2 : A -> C) (l : list A) :
  zip_with g (f1 <$> l) (f2 <$> l) = (fun a => g (f1 a) (f2 a)) <$> l.
Proof.
  induction l as [|a l IH]; simpl; [reflexivity|]. f_equal. exact IH.
Qed.





(* ================================================================== *)
(** * Errors *)

(** X6. The assertions are checked in the order of the source, and the
    message raised is that of the first one that fails, the same in
    both public functions: the length of the disk, the number of rows
    of the coordinates, then pressure, poisson and young.  The store is
    left as it was. *)
Theorem X6_first_failed_check {F : Type} {NF : Numeric F} {SF : Special F}
    (Cm : F -> F -> F) (s : store F) c d rows items
    (pressure poisson young : pyvalue F) :
  s !! c = Some (Ndarray2 rows) ->
  s !! d = Some (PyList items) ->
  let fails msg :=
    Geertsma_disk_displacement Cm (VRef c) (VRef d) pressure poisson young s
    = (inl (AssertionError msg), s)
    /\ Geertsma_disk_stress Cm (VRef c) (VRef d) pressure poisson young s
       = (inl (AssertionError msg), s) in
  (length items <> 5 -> fails "disk must contain y0, x0, D, R, and h"%string)
  /\ (length items = 5 -> length rows <> 3 ->
      fails "coordinates must have 3 rows"%string)
  /\ (length items = 5 -> length rows = 3 -> isscalar pressure = false ->
      fails "pressure must be a scalar"%string)
  /\ (length items = 5 -> length rows = 3 -> isscalar pressure = true ->
      isscalar poisson = false -> fails "poisson must be a scalar"%string)
  /\ (length items = 5 -> length rows = 3 -> isscalar pressure = true ->
      isscalar poisson = true -> isscalar young = false ->
      fails "young must be a scalar"%string).
Proof.
  intros Hc Hd fails.
  assert (Hf : forall msg,
             first_failure rows items pressure poisson young = Some msg ->
             fails msg).
  { intros msg Hm. split.
    - exact (displacement_rejects Cm _ _ _ _ _ _ _ _ Hc Hd _ Hm).
    - exact (stress_rejects Cm _ _ _ _ _ _ _ _ Hc Hd _ Hm). }
  repeat split; intros; apply Hf; unfold first_failure;
    repeat match goal with
           | H : length _ = _ |- _ => rewrite H; clear H
           | H : isscalar _ = _ |- _ => rewrite H; clear H
           | H : length _ <> _ |- _ =>
               apply Nat.eqb_neq in H; rewrite H; clear H
           end; reflexivity.
Qed.

(** X7. A disk that is a float has no length: both public functions
    raise [TypeError] at their first statement, whatever the other
    arguments are, and leave the store as it was. *)
Theorem X7_disk_without_length {F : Type} {NF : Numeric F} {SF : Special F}
    (Cm : F -> F -> F) (s : store F) (x : F)
    (coordinates pressure poisson young : pyvalue F) :
  Geertsma_disk_displacement Cm coordinates (VFloat x)
    pressure poisson young s = (inl TypeError, s)
  /\ Geertsma_disk_stress Cm coordinates (VFloat x)
       pressure poisson young s = (inl TypeError, s).
Proof.
  unfold Geertsma_disk_displacement, Geertsma_disk_stress.
  split; erewrite bind_raise by reflexivity; reflexivity.
Qed.

Section MoreSteps.
Context {F : Type} {NF : Numeric F}.
Implicit Types (s t : store F) (l : loc).

Lemma shape0_list s t l items :
  s !! l = Some (PyList items) ->
  shape0 (VRef l) (s ++ t) = (inl AttributeError, s ++ t).
Proof.
  intros E. unfold shape0, deref.
  rewrite lookup_old by (eapply lookup_lt_Some; eauto). now rewrite E.
Qed.

Lemma len_array1 s t l items :
  s !! l = Some (Ndarray1 items) ->
  len (VRef l) (s ++ t) = (inr (length items), s ++ t).
Proof.
  intros E. unfold len, deref.
  rewrite lookup_old by (eapply lookup_lt_Some; eauto). now rewrite E.
Qed.

Lemma unpack5_array1 s t l a b c d e :
  s !! l = Some (Ndarray1 [a; b; c; d; e]) ->
  unpack5 (VRef l) (s ++ t) = (inr (Sc a, Sc b, Sc c, Sc d, Sc e), s ++ t).
Proof.
  intros E. unfold unpack5, deref.
  rewrite lookup_old by (eapply lookup_lt_Some; eauto). now rewrite E.
Qed.

Lemma shape0_array1 s t l items :
  s !! l = Some (Ndarray1 items) ->
  shape0 (VRef l) (s ++ t) = (inr (length items), s ++ t).
Proof.
  intros E. unfold shape0, deref.
  rewrite lookup_old by (eapply lookup_lt_Some; eauto). now rewrite E.
Qed.

Lemma getitem_element s t l items i x :
  s !! l = Some (Ndarray1 items) -> items !! i = Some x ->
  getitem (VRef l) i (s ++ t) = (inr (Sc x), s ++ t).
Proof.
  intros E Ei. unfold getitem, deref.
  rewrite lookup_old by (eapply lookup_lt_Some; eauto).
  now rewrite E, Ei.
Qed.

Lemma new_scalar (x : F) s : new (Sc x) s = (inr (VFloat x), s).
Proof. reflexivity. Qed.

Lemma imul_float (x y : F) s :
  imul (VFloat x) (Sc y) s = (inr (VFloat (mul x y)), s).
Proof. reflexivity. Qed.
End MoreSteps.

(** One statement of a run, when the disk or the coordinates are a
    one-dimensional array. *)
Ltac run_step_1d :=
  first
    [ run_step
    | erewrite bind_ok by (eapply len_array1; eassumption)
    | erewrite bind_ok by (eapply unpack5_array1; eassumption)
    | erewrite bind_ok by (eapply shape0_array1; eassumption)
    | erewrite bind_ok by (eapply getitem_element; [eassumption|reflexivity])
    | erewrite bind_ok by (apply new_scalar)
    | erewrite bind_ok by (apply imul_float) ];
  cbv beta iota; cbn [app length Nat.eqb isscalar].

(** X8. Coordinates given as a Python list are not converted: with a
    disk of five values, both public functions raise [AttributeError]
    at [coordinates.shape], not the validation error. *)
Theorem X8_coordinates_without_shape
    {F : Type} {NF : Numeric F} {SF : Special F}
    (Cm : F -> F -> F) (s : store F) c d items l
    (pressure poisson young : pyvalue F) :
  s !! d = Some (PyList items) -> length items = 5 ->
  s !! c = Some (PyList l) ->
  Geertsma_disk_displacement Cm (VRef c) (VRef d) pressure poisson young s
  = (inl AttributeError, s)
  /\ Geertsma_disk_stress Cm (VRef c) (VRef d) pressure poisson young s
     = (inl AttributeError, s).
Proof.
  intros Hd H5 Hc.
  unfold Geertsma_disk_displacement, Geertsma_disk_stress.
  rewrite <- (app_nil_r s) at 1 3.
  split; run_step; rewrite H5; run_step;
    (erewrite bind_raise by (eapply shape0_list; eassumption));
    now rewrite app_nil_r.
Qed.

(* ================================================================== *)
(** * Other forms of the arguments *)

Section ArrayDisk.
Context {F : Type} {NF : Numeric F} {SF : Special F}.
Variable Cm : F -> F -> F.
Variables (s : store F) (c d : loc).
Variables (ys xs zs : list F) (y0 x0 D R h p nu E : F).
Hypothesis Hc : s !! c = Some (Ndarray2 [ys; xs; zs]).
Hypothesis Hd : s !! d = Some (Ndarray1 [y0; x0; D; R; h]).

Let Y := val_Y ys y0.
Let X := val_X xs x0.
Let Z := val_Z zs D.
Let r := val_r Y X Z.
Let Z2 := val_Z2 Z D.


End ArrayDisk.


Section PointRun.
Context {F : Type} {NF : Numeric F} {SF : Special F}.
Variable Cm : F -> F -> F.
Variables (s : store F) (c d : loc).
Variables (y x z : F) (y0 x0 D R h p nu E : F).
Hypothesis Hc : s !! c = Some (Ndarray1 [y; x; z]).
Hypothesis Hd : s !! d = Some (PyList [y0; x0; D; R; h]).

Let Z : nd F := bin sub (Sc z) (Sc D).
Let r : nd F := val_r (bin sub (Sc y) (Sc y0)) (bin sub (Sc x) (Sc x0)) Z.
Let Z2 : nd F := val_Z2 Z D.

(** With one point given as an array of three numbers every value is
    a scalar, and nothing is allocated. *)
Lemma displacement_run_point :
  Geertsma_disk_displacement Cm (VRef c) (VRef d)
    (VFloat p) (VFloat nu) (VFloat E) s
  = (inr (VFloat (the (bin mul (val_ur p nu R (Sc z) Z r Z2)
                               (val_scale Cm nu E R h))),
          VFloat (the (bin mul (val_uz p nu R (Sc z) Z r Z2)
                               (val_scale Cm nu E R h)))),
     s).
Proof using Hc Hd.
  unfold Geertsma_disk_displacement.
  rewrite <- (app_nil_r s) at 1.
  do 35 run_step_1d.
  unfold ret. rewrite app_nil_r. reflexivity.
Qed.

Lemma stress_run_point :
  eqb (mul (lit 2) (add (lit 1) nu)) (lit 0) = false ->
  Geertsma_disk_stress Cm (VRef c) (VRef d)
    (VFloat p) (VFloat nu) (VFloat E) s
  = (inr (VFloat (the (bin mul (val_sr p nu R (Sc z) Z r Z2)
                               (val_aux Cm nu E R h))),
          VFloat (the (bin mul (val_st p nu R (Sc z) Z r Z2)
                               (val_aux Cm nu E R h))),
          VFloat (the (bin mul (val_sz p nu R (Sc z) Z r Z2)
                               (val_aux Cm nu E R h)))),
     s).
Proof using Hc Hd.
  intros Hg.
  unfold Geertsma_disk_stress.
  rewrite <- (app_nil_r s) at 1.
  do 38 run_step_1d.
  erewrite bind_ok by (apply G_ok; exact Hg). cbv beta iota zeta.
  do 3 run_step_1d.
  unfold ret. rewrite app_nil_r. reflexivity.
Qed.
End PointRun.


(* ================================================================== *)
(** * More of exact arithmetic *)

Section ExactKernels.
Variables (K Ek : R -> R) (Finc Einc : R -> R -> R).
Variable Cm : R -> R -> R.
Local Existing Instance R_numeric.
Let RS : Special R := R_special K Ek Finc Einc.
Local Existing Instance RS.
Local Open Scope R_scope.

Lemma powerRZ_2 (x : R) : powerRZ x 2 = x * x.
Proof. simpl. ring. Qed.

Lemma Rabs_square (q : R) : Rabs q * Rabs q = q * q.
Proof.
  rewrite <- Rabs_mult. apply Rabs_pos_eq.
  pose proof (pow2_ge_0 q). lra.
Qed.

Lemma Ropp_square (q : R) : - q * - q = q * q.
Proof. ring. Qed.

(** On scalars the exponent 2 is the library's power, on arrays a
    product: in exact arithmetic they agree. *)
Ltac scalar_kernel :=
  unfold I1, I2, I3, I4, I6, Int1, Int2, Int3, Int4, Int6, modulus,
    np_sqrt, np_abs, np_sign, np_arcsin, np_heaviside, np_ellipk, np_ellipe,
    np_ellipkinc, np_ellipeinc, np_pi;
  cbn [bin un power the fmap list_fmap zip_with Z.eqb Pos.eqb powi RS
       R_special];
  rewrite ?powerRZ_2; reflexivity.

Lemma Int1_scalar q r R : Int1 (Sc q) (Sc r) (Sc R) = Sc (I1 q r R).
Proof. scalar_kernel. Qed.
Lemma Int2_scalar q r R : Int2 (Sc q) (Sc r) (Sc R) = Sc (I2 q r R).
Proof. scalar_kernel. Qed.
Lemma Int3_scalar q r R : Int3 (Sc q) (Sc r) (Sc R) = Sc (I3 q r R).
Proof. scalar_kernel. Qed.
Lemma Int4_scalar q r R : Int4 (Sc q) (Sc r) (Sc R) = Sc (I4 q r R).
Proof. scalar_kernel. Qed.
Lemma Int6_scalar q r R : Int6 (Sc q) (Sc r) (Sc R) = Sc (I6 q r R).
Proof. scalar_kernel. Qed.

Lemma val_r_scalar y0 x0 D y x z :
  val_r (Sc (y - y0)) (Sc (x - x0)) (Sc (z - D))
  = Sc (R_sqrt.sqrt ((y - y0) ^ 2 + (x - x0) ^ 2 + (z - D) ^ 2)).
Proof.
  unfold val_r, np_sqrt. cbn [bin un power powi RS R_special].
  rewrite !powerRZ_2. do 2 f_equal. simpl. ring.
Qed.

Ltac scalar_eval :=
  unfold val_ur, val_uz, val_sr, val_st, val_sz, val_scale, val_aux, val_Z2,
    np_abs, np_sign;
  cbn [bin un];
  rewrite val_r_scalar; cbn [bin un];
  rewrite ?Int1_scalar, ?Int2_scalar, ?Int3_scalar, ?Int4_scalar,
    ?Int6_scalar;
  cbn [bin un the].

(** X10. One evaluation point may be given as a one-dimensional array
    [(y, x, z)]: in exact arithmetic both public functions then return
    floats, not arrays, which are the values of the formulas at that
    point, and they allocate nothing. *)
Theorem X10_one_point_as_vector s c d y x z y0 x0 D R h p nu E :
  s !! c = Some (Ndarray1 [y; x; z]) ->
  s !! d = Some (PyList [y0; x0; D; R; h]) ->
  let Z := z - D in
  let r := R_sqrt.sqrt ((y - y0) ^ 2 + (x - x0) ^ 2 + Z ^ 2) in
  let Z2 := Z + 2 * D in
  let aux := E / (2 * (1 + nu)) * Cm nu E * R * h in
  Geertsma_disk_displacement Cm (VRef c) (VRef d)
    (VFloat p) (VFloat nu) (VFloat E) s
  = (inr (VFloat (- p * (I1 (Rabs Z) r R + (3 - 4 * nu) * I1 Z2 r R
                         - 2 * z * I2 Z2 r R) * (Cm nu E * R * h / 2)),
          VFloat (p * (sign Z * I3 (Rabs Z) r R - (3 - 4 * nu) * I3 Z2 r R
                       - 2 * z * I4 Z2 r R) * (Cm nu E * R * h / 2))), s)
  /\ (2 * (1 + nu) <> 0 ->
      Geertsma_disk_stress Cm (VRef c) (VRef d)
        (VFloat p) (VFloat nu) (VFloat E) s
      = (inr (VFloat (p * (I4 (Rabs Z) r R + 3 * I4 Z2 r R
                           - 2 * z * I6 Z2 r R - I1 (Rabs Z) r R / r
                           + (3 - 4 * nu) * I1 Z2 r R / r
                           - 2 * z * I2 Z2 r R / r) * aux),
              VFloat (p * (4 * nu * I4 Z2 r R + I1 (Rabs Z) r R / r
                           + (3 - 4 * nu) * I1 Z2 r R / r
                           - 2 * z * I2 Z2 r R / r) * aux),
              VFloat (- p * (- I4 (Rabs Z) r R + I4 Z2 r R
                             + 2 * z * I6 Z2 r R) * aux)), s)).
Proof.
  intros Hc Hd Z r Z2 aux. split.
  - rewrite (displacement_run_point Cm _ _ _ _ _ _ _ _ _ _ _ p nu E Hc Hd).
    scalar_eval. reflexivity.
  - intros Hg.
    rewrite (stress_run_point Cm _ _ _ _ _ _ _ _ _ _ _ p nu E Hc Hd)
      by (simpl; now apply Reqb_false).
    scalar_eval. reflexivity.
Qed.

Ltac kernel_unfold :=
  unfold I1, I2, I4, I6, Int1, Int2, Int4, Int6, modulus,
    np_sqrt, np_ellipk, np_ellipe, np_pi;
  cbn [bin un power the fmap list_fmap zip_with Z.eqb Pos.eqb];
  cbn [mul neg R_numeric].

Lemma I4_abs q r R : I4 (Rabs q) r R = I4 q r R.
Proof. kernel_unfold. now rewrite Rabs_square. Qed.

Lemma I4_opp q r R : I4 (- q) r R = I4 q r R.
Proof. kernel_unfold. now rewrite Ropp_square. Qed.

(** X12. At the free surface [z = 0] above a disk at depth [D > 0] the
    displacement is Geertsma's surface formula: in exact arithmetic
    [ur = -2*(1-poisson)*Cm*R*h*pressure*I1(D,r,R)] and
    [uz = -2*(1-poisson)*Cm*R*h*pressure*I3(D,r,R)], with
    [r = sqrt((y-y0)^2 + (x-x0)^2 + D^2)]. *)
Theorem X12_surface_displacement
    s c d ys xs zs y0 x0 D R h p nu E i y x :
  s !! c = Some (Ndarray2 [ys; xs; zs]) ->
  s !! d = Some (PyList [y0; x0; D; R; h]) ->
  ys !! i = Some y -> xs !! i = Some x -> zs !! i = Some 0 ->
  0 < D ->
  let r := R_sqrt.sqrt ((y - y0) ^ 2 + (x - x0) ^ 2 + D ^ 2) in
  exists ur uz,
    returns2 (Geertsma_disk_displacement Cm (VRef c) (VRef d)
                (VFloat p) (VFloat nu) (VFloat E) s) ur uz
    /\ ur !! i = Some (- (2 * (1 - nu) * Cm nu E * R * h * p * I1 D r R))
    /\ uz !! i = Some (- (2 * (1 - nu) * Cm nu E * R * h * p * I3 D r R)).
Proof.
  intros Hc Hd Hy Hx Hz HD r.
  eexists _, _.
  split; [exact (displacement_returns Cm _ _ _ _ _ _ _ _ _ _ _ p nu E Hc Hd)|].
  erewrite ur_at, uz_at by eassumption.
  unfold point_ur, point_uz. rewrite point_r_exact.
  unfold point_Z2, point_Z. cbn [sub add mul neg div lit fabs R_numeric].
  replace (0 - D + 2 * D) with D by ring.
  replace (0 - D) with (- D) by ring.
  rewrite Rabs_Ropp, (Rabs_pos_eq D) by lra.
  rewrite sign_neg by lra.
  replace ((- D) ^ 2) with (D ^ 2) by ring. fold r.
  split; f_equal; field.
Qed.

(** X13. The free surface carries no vertical stress: in exact
    arithmetic the vertical stress at a point with [z = 0] is zero,
    for every disk. *)
Theorem X13_surface_vertical_stress
    s c d ys xs zs y0 x0 D R h p nu E i y x :
  s !! c = Some (Ndarray2 [ys; xs; zs]) ->
  s !! d = Some (PyList [y0; x0; D; R; h]) ->
  ys !! i = Some y -> xs !! i = Some x -> zs !! i = Some 0 ->
  2 * (1 + nu) <> 0 ->
  exists sr st sz,
    returns3 (Geertsma_disk_stress Cm (VRef c) (VRef d)
                (VFloat p) (VFloat nu) (VFloat E) s) sr st sz
    /\ sz !! i = Some 0.
Proof.
  intros Hc Hd Hy Hx Hz Hg.
  eexists _, _, _. split.
  { apply (stress_returns Cm _ _ _ _ _ _ _ _ _ _ _ p nu E Hc Hd).
    simpl. now apply Reqb_false. }
  erewrite sz_at by eassumption. f_equal.
  unfold point_sz, point_Z2, point_Z.
  cbn [sub add mul neg div lit fabs R_numeric].
  rewrite I4_abs.
  replace (0 - D + 2 * D) with D by ring.
  replace (0 - D) with (- D) by ring.
  rewrite I4_opp. ring.
Qed.

Lemma I3_steps q r R :
  I3 q r R
  = I3_regular q r R
    + (heaviside (r - R) 0.5 - heaviside (R - r) 0.5) * heuman_lambda q r R
      / (2 * R)
    + heaviside (R - r) 0.5 / R.
Proof. reflexivity. Qed.

(** X14. Away from [r = R] the kernel I3 has two branches: in exact
    arithmetic it is the regular term plus [lambda/(2*R)] outside the
    radius of the disk ([r > R]), and the regular term minus
    [lambda/(2*R)] plus [1/R] inside ([r < R]); at [r = R] it is the
    regular term plus [0.5/R]. *)
Theorem X14_I3_inside_outside q r R :
  I3 q r R
  = I3_regular q r R
    + (if Rltb R r then heuman_lambda q r R / (2 * R)
       else if Rltb r R then - heuman_lambda q r R / (2 * R) + 1 / R
       else 0.5 / R).
Proof.
  rewrite I3_steps. unfold Rltb.
  destruct (Rlt_dec R r) as [Hout|Hnout].
  - rewrite (heaviside_pos (r - R)) by lra.
    rewrite (heaviside_neg (R - r)) by lra. unfold Rdiv. ring.
  - destruct (Rlt_dec r R) as [Hin|Hnin].
    + rewrite (heaviside_neg (r - R)) by lra.
      rewrite (heaviside_pos (R - r)) by lra. unfold Rdiv. ring.
    + assert (r = R) as -> by lra.
      replace (R - R) with 0 by ring.
      rewrite heaviside_zero. unfold Rdiv. ring.
Qed.

(** X15. In exact arithmetic the kernels I1 and I4 are even in their
    first argument and the kernels I2 and I6 are odd: I1 and I4 read
    [q] only through [q**2], so that they have the same value at
    [np.abs(Z)] and at [Z]. *)
Theorem X15_kernel_parity q r R :
  I1 (- q) r R = I1 q r R /\ I4 (- q) r R = I4 q r R
  /\ I1 (Rabs q) r R = I1 q r R /\ I4 (Rabs q) r R = I4 q r R
  /\ I2 (- q) r R = - I2 q r R /\ I6 (- q) r R = - I6 q r R.
Proof.
  split; [|split; [apply I4_opp|]]; [|split; [|split; [apply I4_abs|]]];
    [| |split];
    kernel_unfold; rewrite ?Ropp_square, ?Rabs_square; try reflexivity;
    cbn; unfold Rdiv; ring.
Qed.

Section Superposition.
Variables (y0 x0 D Rd h nu E p1 p2 a b : R).

Let comb : list R -> list R -> list R := zip_with (fun u v => a * u + b * v).

Ltac superpose f :=
  intros pts; unfold comb; rewrite zip_with_fmap_same;
  apply list_fmap_ext; intros _ [[y x] z] _;
  unfold at_point, f, point_aux; cbn [sub add mul neg div lit R_numeric];
  unfold Rdiv; ring.

Lemma point_ur_linear pts :
  at_point (point_ur Cm y0 x0 D Rd h (a * p1 + b * p2) nu E) <$> pts
  = comb (at_point (point_ur Cm y0 x0 D Rd h p1 nu E) <$> pts)
         (at_point (point_ur Cm y0 x0 D Rd h p2 nu E) <$> pts).
Proof. revert pts. superpose @point_ur. Qed.

Lemma point_uz_linear pts :
  at_point (point_uz Cm y0 x0 D Rd h (a * p1 + b * p2) nu E) <$> pts
  = comb (at_point (point_uz Cm y0 x0 D Rd h p1 nu E) <$> pts)
         (at_point (point_uz Cm y0 x0 D Rd h p2 nu E) <$> pts).
Proof. revert pts. superpose @point_uz. Qed.

Lemma point_sr_linear pts :
  at_point (point_sr Cm y0 x0 D Rd h (a * p1 + b * p2) nu E) <$> pts
  = comb (at_point (point_sr Cm y0 x0 D Rd h p1 nu E) <$> pts)
         (at_point (point_sr Cm y0 x0 D Rd h p2 nu E) <$> pts).
Proof. revert pts. superpose @point_sr. Qed.

Lemma point_st_linear pts :
  at_point (point_st Cm y0 x0 D Rd h (a * p1 + b * p2) nu E) <$> pts
  = comb (at_point (point_st Cm y0 x0 D Rd h p1 nu E) <$> pts)
         (at_point (point_st Cm y0 x0 D Rd h p2 nu E) <$> pts).
Proof. revert pts. superpose @point_st. Qed.

Lemma point_sz_linear pts :
  at_point (point_sz Cm y0 x0 D Rd h (a * p1 + b * p2) nu E) <$> pts
  = comb (at_point (point_sz Cm y0 x0 D Rd h p1 nu E) <$> pts)
         (at_point (point_sz Cm y0 x0 D Rd h p2 nu E) <$> pts).
Proof. revert pts. superpose @point_sz. Qed.
End Superposition.

(** X16. In exact arithmetic the outputs are linear in the pressure:
    the arrays returned at the pressure [a*p1 + b*p2] are, element by
    element, [a] times those returned at [p1] plus [b] times those
    returned at [p2]. *)
Theorem X16_linear_in_pressure
    s c d ys xs zs y0 x0 D R h nu E p1 p2 a b :
  s !! c = Some (Ndarray2 [ys; xs; zs]) ->
  s !! d = Some (PyList [y0; x0; D; R; h]) ->
  let disp p :=
    Geertsma_disk_displacement Cm (VRef c) (VRef d)
      (VFloat p) (VFloat nu) (VFloat E) s in
  let stress p :=
    Geertsma_disk_stress Cm (VRef c) (VRef d)
      (VFloat p) (VFloat nu) (VFloat E) s in
  let comb := zip_with (fun u v => a * u + b * v) in
  (exists ur1 uz1 ur2 uz2,
     returns2 (disp p1) ur1 uz1 /\ returns2 (disp p2) ur2 uz2
     /\ returns2 (disp (a * p1 + b * p2)) (comb ur1 ur2) (comb uz1 uz2))
  /\ (2 * (1 + nu) <> 0 ->
      exists sr1 st1 sz1 sr2 st2 sz2,
        returns3 (stress p1) sr1 st1 sz1 /\ returns3 (stress p2) sr2 st2 sz2
        /\ returns3 (stress (a * p1 + b * p2))
             (comb sr1 sr2) (comb st1 st2) (comb sz1 sz2)).
Proof.
  intros Hc Hd disp stress comb. split.
  - eexists _, _, _, _.
    split; [exact (displacement_all Cm _ _ _ _ _ _ _ _ p1 nu E _ _ _ Hc Hd)|].
    split; [exact (displacement_all Cm _ _ _ _ _ _ _ _ p2 nu E _ _ _ Hc Hd)|].
    unfold comb. rewrite <- point_ur_linear, <- point_uz_linear.
    exact (displacement_all Cm _ _ _ _ _ _ _ _ _ nu E _ _ _ Hc Hd).
  - intros Hg.
    assert (Hg' : eqb (#2 * (#1 + nu))%num (#0)%num = false)
      by (simpl; now apply Reqb_false).
    eexists _, _, _, _, _, _.
    split; [exact (stress_all Cm _ _ _ _ _ _ _ _ p1 nu E _ _ _ Hc Hd Hg')|].
    split; [exact (stress_all Cm _ _ _ _ _ _ _ _ p2 nu E _ _ _ Hc Hd Hg')|].
    unfold comb.
    rewrite <- point_sr_linear, <- point_st_linear, <- point_sz_linear.
    exact (stress_all Cm _ _ _ _ _ _ _ _ _ nu E _ _ _ Hc Hd Hg').
Qed.
End ExactKernels.

(* ================================================================== *)
(** * Singular points in machine arithmetic *)

Section Binary64.
Implicit Types x y : float.
Local Open Scope float_scope.

Ltac by_cases x y :=
  unfold nonfinite, zero_or_nan;
  rewrite ?FloatAxioms.add_spec, ?FloatAxioms.sub_spec, ?FloatAxioms.mul_spec,
    ?FloatAxioms.div_spec;
  destruct (Prim2SF x) as [[]|[]| |[] ? ?], (Prim2SF y) as [[]|[]| |[] ? ?];
  simpl; congruence.

(** An infinity or NaN is absorbing for the sum, the difference and the
    product, and as a dividend. *)
Lemma add_nonfinite_l x y : nonfinite x = true -> nonfinite (x + y) = true.
Proof. by_cases x y. Qed.
Lemma sub_nonfinite_l x y : nonfinite x = true -> nonfinite (x - y) = true.
Proof. by_cases x y. Qed.
Lemma mul_nonfinite_l x y : nonfinite x = true -> nonfinite (x * y) = true.
Proof. by_cases x y. Qed.
Lemma mul_nonfinite_r x y : nonfinite y = true -> nonfinite (x * y) = true.
Proof. by_cases x y. Qed.

Lemma opp_nonfinite x : nonfinite x = true -> nonfinite (- x) = true.
Proof.
  unfold nonfinite. rewrite FloatAxioms.opp_spec.
  destruct (Prim2SF x); simpl; congruence.
Qed.

(** A division by a zero or by NaN never gives a finite number. *)
Lemma div_zero_or_nan x y : zero_or_nan y = true -> nonfinite (x / y) = true.
Proof. by_cases x y. Qed.

Lemma mul_zero_or_nan_r x y :
  zero_or_nan y = true -> zero_or_nan (x * y) = true.
Proof. by_cases x y. Qed.


End Binary64.

Section Singular.
Context {SF : Special float}.



Variables (q r R : float).




Lemma I4_modulus :
  I4 q r R
  = (let m := m_at q r R in
     powi (sqrt m) 3 * (powi R 2 - r * r - q * q) * ellipe m
       / (#8 * pi * powi (sqrt (r * R)) 3 * R * (#1 - m))
     + sqrt m * ellipk m / (#2 * pi * R * sqrt (r * R)))%num.
Proof. reflexivity. Qed.

(** Where the computed [m] is 1 the kernel I4 divides by [1 - m = 0]. *)
Lemma I4_at_one : m_at q r R = 1%float -> nonfinite (I4 q r R) = true.
Proof.
  intros Hm. rewrite I4_modulus. cbv zeta. rewrite Hm.
  cbn [add sub mul div float_numeric].
  apply add_nonfinite_l. apply div_zero_or_nan.
  apply mul_zero_or_nan_r. reflexivity.
Qed.
End Singular.


(** X18. Where the parameter [m] computed for [(|Z|, r, R)] is exactly
    1.0, which in binary64 happens on the rim of the disk and at points
    next to it, the radial and the vertical stress are an infinity or
    NaN, whatever the library functions return: the kernel I4 divides
    by [1 - m]. *)
Theorem X18_rim_stress_not_finite {SF : Special float}
    (Cm : float -> float -> float) (s : store float) c d ys xs zs
    (y0 x0 D R h p nu E : float) i (y x z : float) :
  s !! c = Some (Ndarray2 [ys; xs; zs]) ->
  s !! d = Some (PyList [y0; x0; D; R; h]) ->
  ys !! i = Some y -> xs !! i = Some x -> zs !! i = Some z ->
  m_at (PrimFloat.abs (z - D)) (point_r y0 x0 D y x z) R = 1%float ->
  eqb (#2 * (#1 + nu))%num (#0)%num = false ->
  exists sr st sz a e,
    returns3 (Geertsma_disk_stress Cm (VRef c) (VRef d)
                (VFloat p) (VFloat nu) (VFloat E) s) sr st sz
    /\ sr !! i = Some a /\ sz !! i = Some e
    /\ nonfinite a = true /\ nonfinite e = true.
Proof.
  intros Hc Hd Hy Hx Hz Hm Hg.
  pose proof (I4_at_one _ _ _ Hm) as H4.
  eexists _, _, _, _, _.
  split; [exact (stress_returns Cm _ _ _ _ _ _ _ _ _ _ _ p nu E Hc Hd Hg)|].
  split; [exact (sr_at Cm _ _ _ _ _ _ _ _ _ _ _ _ _ _ _ Hy Hx Hz)|].
  split; [exact (sz_at Cm _ _ _ _ _ _ _ _ _ _ _ _ _ _ _ Hy Hx Hz)|].
  unfold point_sr, point_sz, point_Z. cbv zeta.
  cbn [add sub mul div neg fabs float_numeric].
  split.
  - apply mul_nonfinite_l, mul_nonfinite_r, sub_nonfinite_l,
      add_nonfinite_l, sub_nonfinite_l, sub_nonfinite_l,
      add_nonfinite_l, H4.
  - apply mul_nonfinite_l, mul_nonfinite_r, add_nonfinite_l,
      add_nonfinite_l, opp_nonfinite, H4.
Qed.

(* ================================================================== *)
(** * The rim and rotations in machine arithmetic *)

Section Terms.
Context {F : Type} {NF : Numeric F} {SF : Special F}.

End Terms.

Section NaN64.
Implicit Types x y : float.
Local Open Scope float_scope.

Ltac by_cases x y :=
  unfold nonfinite, zero_or_nan, isnan;
  rewrite ?FloatAxioms.add_spec, ?FloatAxioms.sub_spec, ?FloatAxioms.mul_spec,
    ?FloatAxioms.div_spec;
  destruct (Prim2SF x) as [[]|[]| |[] ? ?], (Prim2SF y) as [[]|[]| |[] ? ?];
  simpl; congruence.




End NaN64.

Section Rim.
Context {S : Special float}.
Hypothesis Hinf : ellipk 1%float = infinity.

Let q := 0x1p-30%float.
Let R := 1%float.





End Rim.



(* ================================================================== *)
(** * The statements at concrete inputs *)

Section Witnesses.
Local Open Scope R_scope.

Let K : R -> R := fun m => m.
Let Finc : R -> R -> R := fun _ m => m.
Let c : loc := 0%nat.
Let d : loc := 1%nat.

Lemma C1_witness :
  exists ur uz : list R,
    returns2 (Geertsma_disk_displacement (SF := sample_special) sample_Cm
                (VRef c) (VRef d) (VFloat (-10)) (VFloat 0.25)
                (VFloat 10000) sample_store) ur uz
    /\ exists v, uz !! 0%nat = Some v.
Proof.
  destruct (C1_vertical_displacement K K Finc Finc sample_Cm sample_store
              c d [3; 0] [4; 5] [0; 0] 0 0 1000 500 50 (-10) 0.25 10000
              0%nat 3 4 0 eq_refl eq_refl eq_refl eq_refl eq_refl)
    as (ur & uz & Hr & Hv & _).
  exists ur, uz. split; [exact Hr|]. eexists. exact Hv.
Defined.

Lemma C4_witness :
  exists ur uz : list R,
    returns2 (Geertsma_disk_displacement (SF := sample_special) sample_Cm
                (VRef c) (VRef d) (VFloat (-10)) (VFloat 0.25)
                (VFloat 10000) sample_store) ur uz
    /\ exists v, ur !! 1%nat = Some v.
Proof.
  destruct (C4_radial_displacement K K Finc Finc sample_Cm sample_store
              c d [3; 0] [4; 5] [0; 0] 0 0 1000 500 50 (-10) 0.25 10000
              1%nat 0 5 0 eq_refl eq_refl eq_refl eq_refl eq_refl)
    as (ur & uz & Hr & Hv).
  exists ur, uz. split; [exact Hr|]. eexists. exact Hv.
Defined.

Lemma C9_witness :
  2 * (1 + 0.25) <> 0
  /\ exists sr st sz : list R,
       returns3 (Geertsma_disk_stress (SF := sample_special) sample_Cm
                   (VRef c) (VRef d) (VFloat (-10)) (VFloat 0.25)
                   (VFloat 10000) sample_store) sr st sz
       /\ exists v, sz !! 0%nat = Some v.
Proof.
  assert (Hg : 2 * (1 + 0.25) <> 0) by lra.
  split; [exact Hg|].
  destruct (C9_stress_common_factor K K Finc Finc sample_Cm sample_store
              c d [3; 0] [4; 5] [0; 0] 0 0 1000 500 50 (-10) 0.25 10000
              0%nat 3 4 0 eq_refl eq_refl eq_refl eq_refl eq_refl Hg)
    as (sr & st & sz & Hr & _ & _ & Hv).
  exists sr, st, sz. split; [exact Hr|]. eexists. exact Hv.
Defined.


Lemma C6_witness :
  0 < 500 /\ 0 <= 1000 /\ 0 <= 3
  /\ 0 <= m_at (SF := sample_special) 3 1000 500 < 1.
Proof.
  assert (HR : 0 < 500) by lra.
  assert (Hr : 0 <= 1000) by lra.
  assert (Hq : 0 <= 3) by lra.
  repeat split; try assumption;
    apply (proj1 (proj2 (C6_modulus_bound_exact K K Finc Finc 3 1000 500
                           HR Hr Hq))); lra.
Defined.
End Witnesses.

Lemma C3_witness :
  geometry_at
    (snd (Geertsma_disk_displacement (SF := sample_special64) sample_Cm64
            (VRef 0) (VRef 1) (VFloat (-10)%float) (VFloat 0.25%float)
            (VFloat 10000%float) sample_store64))
    2 0 3%float 4%float (-1000)%float 0x1.f4019998f1d47p+9%float 1000%float.
Proof.
  exact (proj1 (C3_point_geometry (SF := sample_special64) sample_Cm64
                  sample_store64 0 1 [3; 0]%float [4; 5]%float [0; 0]%float
                  0%float 0%float 1000%float 500%float 50%float
                  (-10)%float 0.25%float 10000%float 0 3%float 4%float 0%float
                  eq_refl eq_refl eq_refl eq_refl eq_refl)).
Defined.

Lemma C5_witness :
  violated [[3; 0]; [4; 5]; [0; 0]]%float [0; 0; 1000; 500; 50]%float
    (VFloat (-10)%float) (VRef 0) (VFloat 10000%float)
  /\ exists msg,
       fst (Geertsma_disk_displacement (SF := sample_special64) sample_Cm64
              (VRef 0) (VRef 1) (VFloat (-10)%float) (VRef 0)
              (VFloat 10000%float) sample_store64)
       = inl (AssertionError msg).
Proof.
  assert (Hv : violated [[3; 0]; [4; 5]; [0; 0]]%float
                 [0; 0; 1000; 500; 50]%float
                 (VFloat (-10)%float) (VRef 0) (VFloat 10000%float)).
  { right. right. right. left. reflexivity. }
  split; [exact Hv|].
  exact (proj1 (proj1 (C5_validation_errors (SF := sample_special64)
                         sample_Cm64 sample_store64 0 1 _ _
                         (VFloat (-10)%float) (VRef 0) (VFloat 10000%float)
                         eq_refl eq_refl)) Hv).
Defined.



(** The further properties at concrete inputs. *)





Lemma X6_witness :
  Geertsma_disk_displacement (SF := sample_special64) sample_Cm64
    (VRef 0) (VRef 1) (VFloat (-10)%float) (VRef 0) (VRef 1) sample_store64
  = (inl (AssertionError "poisson must be a scalar"), sample_store64).
Proof.
  exact (proj1 (proj1 (proj2 (proj2 (proj2
           (X6_first_failed_check (SF := sample_special64) sample_Cm64
              sample_store64 0 1 _ _
              (VFloat (-10)%float) (VRef 0) (VRef 1) eq_refl eq_refl))))
           eq_refl eq_refl eq_refl eq_refl)).
Defined.

Lemma X8_witness :
  Geertsma_disk_displacement (SF := sample_special64) sample_Cm64
    (VRef 6) (VRef 1) (VFloat (-10)%float) (VFloat 0.25%float)
    (VFloat 10000%float) sample_heap64
  = (inl AttributeError, sample_heap64).
Proof.
  exact (proj1 (X8_coordinates_without_shape (SF := sample_special64)
                  sample_Cm64 sample_heap64 6 1 _ _
                  (VFloat (-10)%float) (VFloat 0.25%float)
                  (VFloat 10000%float) eq_refl eq_refl eq_refl)).
Defined.



Section MoreWitnesses.
Local Open Scope R_scope.

Let K : R -> R := fun m => m.
Let Finc : R -> R -> R := fun _ m => m.
Let c : loc := 0%nat.
Let d : loc := 1%nat.
Let v : loc := 2%nat.

Lemma X10_witness :
  exists ur uz : R,
    Geertsma_disk_displacement (SF := sample_special) sample_Cm
      (VRef v) (VRef d) (VFloat (-10)) (VFloat 0.25) (VFloat 10000)
      sample_heap
    = (inr (VFloat ur, VFloat uz), sample_heap).
Proof.
  eexists _, _.
  exact (proj1 (X10_one_point_as_vector K K Finc Finc sample_Cm sample_heap
                  v d 3 4 0 0 0 1000 500 50 (-10) 0.25 10000
                  eq_refl eq_refl)).
Defined.

Lemma X12_witness :
  0 < 1000
  /\ exists ur uz : list R,
       returns2 (Geertsma_disk_displacement (SF := sample_special) sample_Cm
                   (VRef c) (VRef d) (VFloat (-10)) (VFloat 0.25)
                   (VFloat 10000) sample_store) ur uz
       /\ exists a b, ur !! 0%nat = Some a /\ uz !! 0%nat = Some b.
Proof.
  assert (HD : 0 < 1000) by lra.
  split; [exact HD|].
  destruct (X12_surface_displacement K K Finc Finc sample_Cm sample_store
              c d [3; 0] [4; 5] [0; 0] 0 0 1000 500 50 (-10) 0.25 10000
              0%nat 3 4 eq_refl eq_refl eq_refl eq_refl eq_refl HD)
    as (ur & uz & Hr & Hu & Hv).
  exists ur, uz. split; [exact Hr|]. eexists _, _. split; eassumption.
Defined.

Lemma X13_witness :
  2 * (1 + 0.25) <> 0
  /\ exists sr st sz : list R,
       returns3 (Geertsma_disk_stress (SF := sample_special) sample_Cm
                   (VRef c) (VRef d) (VFloat (-10)) (VFloat 0.25)
                   (VFloat 10000) sample_store) sr st sz
       /\ sz !! 1%nat = Some 0.
Proof.
  assert (Hg : 2 * (1 + 0.25) <> 0) by lra.
  split; [exact Hg|].
  exact (X13_surface_vertical_stress K K Finc Finc sample_Cm sample_store
           c d [3; 0] [4; 5] [0; 0] 0 0 1000 500 50 (-10) 0.25 10000
           1%nat 0 5 eq_refl eq_refl eq_refl eq_refl eq_refl Hg).
Defined.

Lemma X16_witness :
  exists ur1 uz1 ur2 uz2 : list R,
    returns2 (Geertsma_disk_displacement (SF := sample_special) sample_Cm
                (VRef c) (VRef d) (VFloat (-10)) (VFloat 0.25)
                (VFloat 10000) sample_store) ur1 uz1
    /\ returns2 (Geertsma_disk_displacement (SF := sample_special) sample_Cm
                   (VRef c) (VRef d) (VFloat 4) (VFloat 0.25)
                   (VFloat 10000) sample_store) ur2 uz2
    /\ returns2 (Geertsma_disk_displacement (SF := sample_special) sample_Cm
                   (VRef c) (VRef d) (VFloat (2 * -10 + 3 * 4))
                   (VFloat 0.25) (VFloat 10000) sample_store)
         (zip_with (fun a b => 2 * a + 3 * b) ur1 ur2)
         (zip_with (fun a b => 2 * a + 3 * b) uz1 uz2).
Proof.
  exact (proj1 (X16_linear_in_pressure K K Finc Finc sample_Cm sample_store
                  c d [3; 0] [4; 5] [0; 0] 0 0 1000 500 50 0.25 10000
                  (-10) 4 2 3 eq_refl eq_refl)).
Defined.
End MoreWitnesses.


Lemma X18_witness :
  m_at (SF := sample_special64)
    (PrimFloat.abs (0x1.00000004p+0 - 1))
    (point_r 0%float 0%float 1%float 1%float 0%float 0x1.00000004p+0%float)
    1%float = 1%float
  /\ exists sr st sz a e,
       returns3 (Geertsma_disk_stress (SF := sample_special64) sample_Cm64
                   (VRef 7) (VRef 8) (VFloat (-10)%float) (VFloat 0.25%float)
                   (VFloat 10000%float) sample_heap64) sr st sz
       /\ sr !! 1 = Some a /\ sz !! 1 = Some e
       /\ nonfinite a = true /\ nonfinite e = true.
Proof.
  split; [reflexivity|].
  exact (X18_rim_stress_not_finite (SF := sample_special64) sample_Cm64
           sample_heap64 7 8 [0; 1]%float [0; 0]%float
           [1; 0x1.00000004p+0]%float
           0%float 0%float 1%float 1%float 1%float
           (-10)%float 0.25%float 10000%float 1
           1%float 0%float 0x1.00000004p+0%float
           eq_refl eq_refl eq_refl eq_refl eq_refl eq_refl eq_refl).
Defined.
